(** * hubcli: the BLE packet decryption core

    A shallow embedding of [internal/crypto] of hubcli (cmac.go, kdf.go,
    aesctr.go, decrypt.go) together with the library primitives it calls
    (crypto/aes, crypto/cipher CTR mode, github.com/aead/cmac,
    crypto/subtle, encoding/binary, strconv), followed by the properties of
    the packet codec, the key schedule, the truncated MAC and the windowed
    time-counter search.

    Conventions.  A Go [byte] is a [Z] in [0, 256); a [[]byte] is a
    [list Z]; [uint16]/[uint32] values and [int] values that can overflow
    are [Z] with the wrap-around written out; a Go [(T, error)] pair is a [result T]; a loop that Go does not
    bound is run with a fuel argument and returns [None] when the fuel is
    used up before the loop stops. *)

From Stdlib Require Import String Ascii DecimalString DecimalN DecimalPos.
From Stdlib Require Import ZArith Lia Bool List.
Import ListNotations.
Local Open Scope Z_scope.

(** ** Errors and results *)

(** Go [error] values.  [Wrapf fmt args e] is [fmt.Errorf(fmt, ...)] with a
    [%w] verb wrapping [e]; [Errorf fmt args] is one without; [Panic] is a
    run-time panic (a slice bound out of range), which ends the call. *)
Inductive error : Type :=
| ErrPacketTooShort
| ErrDecryptionFailed
| ErrInvalidKey
| ErrAuthenticationFail
| KeySizeError (n : Z)
| Errorf (fmt : string) (args : list Z)
| Wrapf (fmt : string) (args : list Z) (inner : error)
| Panic (msg : string).

Inductive result (A : Type) : Type :=
| Ok (a : A)
| Err (e : error).
Arguments Ok {A} a.
Arguments Err {A} e.

Definition sentinel_eqb (a b : error) : bool :=
  match a, b with
  | ErrPacketTooShort, ErrPacketTooShort => true
  | ErrDecryptionFailed, ErrDecryptionFailed => true
  | ErrInvalidKey, ErrInvalidKey => true
  | ErrAuthenticationFail, ErrAuthenticationFail => true
  | _, _ => false
  end.

(** [errors.Is e target] for a sentinel [target]: follow the [%w] chain. *)
Fixpoint errors_Is (e target : error) : bool :=
  sentinel_eqb e target ||
  match e with
  | Wrapf _ _ inner => errors_Is inner target
  | _ => false
  end.

(** ** Machine integers and byte order *)

Definition byte := Z.

Definition len {A} (l : list A) : Z := Z.of_nat (length l).

Definition uint8 (x : Z) : Z := x mod 256.
Definition uint32 (x : Z) : Z := x mod 4294967296.

(** Go's [int] on a 64-bit platform: a signed 64-bit integer whose
    arithmetic wraps around. *)
Definition int (x : Z) : Z :=
  (x + 9223372036854775808) mod 18446744073709551616 - 9223372036854775808.

Definition is_int (x : Z) : Prop :=
  - 9223372036854775808 <= x < 9223372036854775808.

(** [runtime.maxAlloc] on a 64-bit platform (48 bits of heap address):
    [make([]byte, 0, n)] panics with [makeslice: cap out of range] when [n]
    is negative or larger. *)
Definition maxAlloc : Z := 281474976710656.

Definition is_byte (b : Z) : Prop := 0 <= b < 256.

(** [binary.BigEndian.Uint16(b)] on a slice of at least two bytes. *)
Definition BigEndian_Uint16 (b : list byte) : Z :=
  Z.lor (Z.shiftl (nth 0 b 0) 8) (nth 1 b 0).

(** The four bytes written by [binary.BigEndian.PutUint32] and appended by
    [binary.BigEndian.AppendUint32] for a [uint32] value [v]. *)
Definition BigEndian_Uint32_bytes (v : Z) : list byte :=
  [uint8 (Z.shiftr v 24); uint8 (Z.shiftr v 16); uint8 (Z.shiftr v 8); uint8 v].

Definition BigEndian_AppendUint32 (b : list byte) (v : Z) : list byte :=
  b ++ BigEndian_Uint32_bytes v.

(** [[]byte(s)] for a Go string. *)
Definition bytes_of_string (s : string) : list byte :=
  map (fun c => Z.of_N (N_of_ascii c)) (list_ascii_of_string s).

(** [strconv.FormatUint(uint64(v), 10)]. *)
Definition FormatUint10 (v : Z) : string :=
  NilZero.string_of_uint (N.to_uint (Z.to_N v)).

(** Byte-wise exclusive or of the first sixteen positions; positions past
    the end of an argument read as zero. *)
Definition xor16 (a b : list byte) : list byte :=
  map (fun i => Z.lxor (nth i a 0) (nth i b 0)) (seq 0 16).

(** ** crypto/aes: the AES block cipher (FIPS 197) *)
Module aes.

Definition BlockSize : Z := 16.

Definition sbox : list Z :=
  [99;124;119;123;242;107;111;197;48;1;103;43;254;215;171;118;
   202;130;201;125;250;89;71;240;173;212;162;175;156;164;114;192;
   183;253;147;38;54;63;247;204;52;165;229;241;113;216;49;21;
   4;199;35;195;24;150;5;154;7;18;128;226;235;39;178;117;
   9;131;44;26;27;110;90;160;82;59;214;179;41;227;47;132;
   83;209;0;237;32;252;177;91;106;203;190;57;74;76;88;207;
   208;239;170;251;67;77;51;133;69;249;2;127;80;60;159;168;
   81;163;64;143;146;157;56;245;188;182;218;33;16;255;243;210;
   205;12;19;236;95;151;68;23;196;167;126;61;100;93;25;115;
   96;129;79;220;34;42;144;136;70;238;184;20;222;94;11;219;
   224;50;58;10;73;6;36;92;194;211;172;98;145;149;228;121;
   231;200;55;109;141;213;78;169;108;86;244;234;101;122;174;8;
   186;120;37;46;28;166;180;198;232;221;116;31;75;189;139;138;
   112;62;181;102;72;3;246;14;97;53;87;185;134;193;29;158;
   225;248;152;17;105;217;142;148;155;30;135;233;206;85;40;223;
   140;161;137;13;191;230;66;104;65;153;45;15;176;84;187;22].

Definition SubByte (x : byte) : byte := nth (Z.to_nat x) sbox 0.

(** Multiplication by [x] in GF(2^8) modulo [x^8+x^4+x^3+x+1]. *)
Definition xtime (x : byte) : byte :=
  Z.lxor (Z.land (Z.shiftl x 1) 255) (if Z.testbit x 7 then 27 else 0).

Definition word := list byte.

Definition SubWord (w : word) : word := map SubByte w.

Definition RotWord (w : word) : word :=
  match w with
  | a :: rest => rest ++ [a]
  | [] => []
  end.

Definition xor_word (a b : word) : word :=
  map (fun i => Z.lxor (nth i a 0) (nth i b 0)) (seq 0 4).

(** The key schedule: [n] more words after the [i] already in [ws]. *)
Fixpoint expand (n i nk : nat) (rc : byte) (ws : list word) : list word :=
  match n with
  | O => ws
  | S n' =>
      let prev := nth (i - 1) ws [] in
      let first := Nat.eqb (i mod nk) 0 in
      let t :=
        if first then xor_word (SubWord (RotWord prev)) [rc; 0; 0; 0]
        else if (Nat.ltb 6 nk && Nat.eqb (i mod nk) 4)%bool then SubWord prev
        else prev in
      expand n' (S i) nk (if first then xtime rc else rc)
             (ws ++ [xor_word (nth (i - nk) ws []) t])
  end.

Fixpoint words_of (n : nat) (key : list byte) : list word :=
  match n with
  | O => []
  | S n' => firstn 4 key :: words_of n' (skipn 4 key)
  end.

Fixpoint round_keys (n : nat) (ws : list word) : list (list byte) :=
  match n with
  | O => []
  | S n' => concat (firstn 4 ws) :: round_keys n' (skipn 4 ws)
  end.

Definition expandKey (key : list byte) : list (list byte) :=
  let nk := Nat.div (length key) 4 in
  let nr := (nk + 6)%nat in
  round_keys (S nr) (expand (4 * S nr - nk) nk nk 1 (words_of nk key)).

Definition shift_rows_index : list nat :=
  [0; 5; 10; 15; 4; 9; 14; 3; 8; 13; 2; 7; 12; 1; 6; 11]%nat.

(** SubBytes followed by ShiftRows. *)
Definition SubShift (st : list byte) : list byte :=
  map (fun i => SubByte (nth i st 0)) shift_rows_index.

Definition MixColumn (a0 a1 a2 a3 : byte) : list byte :=
  [ Z.lxor (Z.lxor (xtime a0) (Z.lxor (xtime a1) a1)) (Z.lxor a2 a3);
    Z.lxor (Z.lxor a0 (xtime a1)) (Z.lxor (Z.lxor (xtime a2) a2) a3);
    Z.lxor (Z.lxor a0 a1) (Z.lxor (xtime a2) (Z.lxor (xtime a3) a3));
    Z.lxor (Z.lxor (Z.lxor (xtime a0) a0) a1) (Z.lxor a2 (xtime a3)) ].

Definition MixColumns (st : list byte) : list byte :=
  flat_map (fun c => MixColumn (nth (4 * c) st 0) (nth (4 * c + 1) st 0)
                               (nth (4 * c + 2) st 0) (nth (4 * c + 3) st 0))
           [0; 1; 2; 3]%nat.

Fixpoint rounds (rks : list (list byte)) (st : list byte) : list byte :=
  match rks with
  | [] => st
  | [last] => xor16 (SubShift st) last
  | rk :: more => rounds more (xor16 (MixColumns (SubShift st)) rk)
  end.

(** A [cipher.Block] made by [aes.NewCipher]: the expanded key. *)
Record Block : Type := mkBlock { enc : list (list byte) }.

Definition Block_BlockSize (_ : Block) : Z := BlockSize.

(** [Block.Encrypt] on one sixteen-byte block. *)
Definition Encrypt (c : Block) (src : list byte) : list byte :=
  match enc c with
  | [] => xor16 src []
  | rk0 :: rest => rounds rest (xor16 src rk0)
  end.

(** [aes.NewCipher]: keys of 16, 24 or 32 bytes, [KeySizeError] otherwise. *)
Definition NewCipher (key : list byte) : result Block :=
  let k := len key in
  if (k =? 16) || (k =? 24) || (k =? 32)
  then Ok (mkBlock (expandKey key))
  else Err (KeySizeError k).

End aes.

(** ** github.com/aead/cmac: CMAC (RFC 4493) over a block cipher *)
Module cmac.

(** The [hash.Hash] returned by [cmac.New]: the cipher, the two subkeys
    computed at creation, and the bytes written since the last [Reset]. *)
Record Hash : Type := mkHash {
  cipher : aes.Block;
  k0 : list byte;
  k1 : list byte;
  buf : list byte
}.

(** Shift a block left by one bit; the carry out of the top bit selects the
    reduction constant [0x87]. *)
Definition shift_bytes (b : list byte) : list byte :=
  map (fun i => Z.lor (Z.land (Z.shiftl (nth i b 0) 1) 255)
                      (Z.shiftr (nth (S i) b 0) 7)) (seq 0 16).

Definition double (b : list byte) : list byte :=
  let s := shift_bytes b in
  if Z.testbit (nth 0 b 0) 7
  then firstn 15 s ++ [Z.lxor (nth 15 s 0) 135]
  else s.

Definition New (c : aes.Block) : result Hash :=
  if aes.Block_BlockSize c =? 16 then
    let l := aes.Encrypt c (repeat 0 16) in
    let s0 := double l in
    Ok (mkHash c s0 (double s0) [])
  else Err (Errorf "cmac: invalid block size" []).

Definition Size (_ : Hash) : Z := 16.

Definition Reset (h : Hash) : Hash := mkHash (cipher h) (k0 h) (k1 h) [].

Definition Write (h : Hash) (p : list byte) : Hash :=
  mkHash (cipher h) (k0 h) (k1 h) (buf h ++ p).

(** CBC chaining over the written bytes; the last block is masked with
    [k0] when complete and padded with [0x80 00..] and masked with [k1]
    otherwise. *)
Fixpoint chain (fuel : nat) (h : Hash) (x m : list byte) : list byte :=
  match fuel with
  | O => x
  | S fuel' =>
      if Nat.leb (length m) 16 then
        let last := if Nat.eqb (length m) 16
                    then xor16 m (k0 h)
                    else xor16 (m ++ [128]) (k1 h) in
        aes.Encrypt (cipher h) (xor16 x last)
      else
        chain fuel' h (aes.Encrypt (cipher h) (xor16 x (firstn 16 m)))
              (skipn 16 m)
  end.

(** [h.Sum(nil)]: the sixteen-byte MAC of the bytes written so far. *)
Definition Sum (h : Hash) : list byte :=
  chain (S (length (buf h))) h (repeat 0 16) (buf h).

End cmac.

(** ** crypto/cipher: counter mode *)
Module ctr.

(** Increment a big-endian counter block, carrying leftwards.  The first
    component is the carry out. *)
Fixpoint incr (c : list byte) : bool * list byte :=
  match c with
  | [] => (true, [])
  | b :: rest =>
      let '(carry, rest') := incr rest in
      if carry then (uint8 (b + 1) =? 0, uint8 (b + 1) :: rest')
      else (false, b :: rest')
  end.

Fixpoint keystream (c : aes.Block) (counter : list byte) (nblocks : nat)
  : list byte :=
  match nblocks with
  | O => []
  | S n => aes.Encrypt c counter ++ keystream c (snd (incr counter)) n
  end.

Fixpoint xor_bytes (src ks : list byte) : list byte :=
  match src, ks with
  | s :: src', k :: ks' => Z.lxor s k :: xor_bytes src' ks'
  | _, _ => []
  end.

(** [cipher.NewCTR(block, iv).XORKeyStream(dst, src)] with
    [len(dst) = len(src)]: the bytes left in [dst]. *)
Definition XORKeyStream (c : aes.Block) (iv src : list byte) : list byte :=
  xor_bytes src (keystream c iv (Nat.div (length src + 15) 16)).

End ctr.

(** ** crypto/subtle *)
Module subtle.

(** [subtle.ConstantTimeCompare]: 1 when the slices have equal length and
    contents, 0 otherwise; the differences of all positions are
    accumulated with [|=] before a single final test. *)
Fixpoint accumulate (v : Z) (x y : list byte) : Z :=
  match x, y with
  | a :: x', b :: y' => accumulate (Z.lor v (Z.lxor a b)) x' y'
  | _, _ => v
  end.

Definition ConstantTimeCompare (x y : list byte) : Z :=
  if negb (len x =? len y) then 0
  else if accumulate 0 x y =? 0 then 1 else 0.

End subtle.

(** ** Slices *)

(** [l[lo:hi]] and [l[:hi]] for bounds that are in range. *)
Definition slice (l : list byte) (lo hi : Z) : list byte :=
  firstn (Z.to_nat (hi - lo)) (skipn (Z.to_nat lo) l).

Definition slice_to (l : list byte) (hi : Z) : list byte := slice l 0 hi.

Definition slice_from (l : list byte) (lo : Z) : list byte :=
  skipn (Z.to_nat lo) l.

(** [make([]byte, n)]. *)
Definition make (n : Z) : list byte := repeat 0 (Z.to_nat n).

(** The contents of [dst] after [copy(dst, src)]. *)
Definition copy (dst src : list byte) : list byte :=
  firstn (length dst) src ++ skipn (length src) dst.

(** ** internal/crypto/cmac.go *)

Definition AuthTagSize : Z := 4.

Definition ComputeAuthTag (key data : list byte) : result (list byte) :=
  if negb (len key =? 16) && negb (len key =? 32) then
    Err (Errorf "key must be 16 or 32 bytes, got %d" [len key])
  else
    match aes.NewCipher key with
    | Err e => Err (Wrapf "failed to create AES cipher: %w" [] e)
    | Ok block =>
        match cmac.New block with
        | Err e => Err (Wrapf "failed to create CMAC: %w" [] e)
        | Ok mac =>
            let mac := cmac.Write mac data in
            let fullTag := cmac.Sum mac in
            Ok (slice_to fullTag AuthTagSize)
        end
    end.

Definition VerifyAuthTag (key data expectedTag : list byte) : result bool :=
  if negb (len expectedTag =? AuthTagSize) then
    Err (Errorf "expected tag must be %d bytes, got %d"
                [AuthTagSize; len expectedTag])
  else
    match ComputeAuthTag key data with
    | Err e => Err e
    | Ok computedTag =>
        Ok (subtle.ConstantTimeCompare computedTag expectedTag =? 1)
    end.

Definition ComputeFullCMAC (key data : list byte) : result (list byte) :=
  if negb (len key =? 16) && negb (len key =? 32) then
    Err (Errorf "key must be 16 or 32 bytes, got %d" [len key])
  else
    match aes.NewCipher key with
    | Err e => Err (Wrapf "failed to create AES cipher: %w" [] e)
    | Ok block =>
        match cmac.New block with
        | Err e => Err (Wrapf "failed to create CMAC: %w" [] e)
        | Ok mac =>
            let mac := cmac.Write mac data in
            Ok (cmac.Sum mac)
        end
    end.

(** ** internal/crypto/kdf.go *)

(** The body of [for i := 1; i <= numBlocks; i++]: [n] iterations are left,
    the loop variable is [i]. *)
Fixpoint kdf_blocks (n : nat) (i : Z) (mac : cmac.Hash)
         (fixedInput result : list byte) : list byte :=
  match n with
  | O => result
  | S n' =>
      let mac := cmac.Reset mac in
      let counterBytes := BigEndian_Uint32_bytes (uint32 i) in
      let mac := cmac.Write mac counterBytes in
      let mac := cmac.Write mac fixedInput in
      let result := result ++ cmac.Sum mac in
      kdf_blocks n' (i + 1) mac fixedInput result
  end.

(** [outputLen] is an [int]: the sums and products on it wrap around, and
    [make] panics for a capacity that is negative or above [maxAlloc].  A
    capacity within the limit is taken to be allocated. *)
Definition SP800108CounterKDF (key : list byte) (label context : string)
           (outputLen : Z) : result (list byte) :=
  if negb (len key =? 16) && negb (len key =? 32) then
    Err (Errorf "key must be 16 or 32 bytes, got %d" [len key])
  else
    match aes.NewCipher key with
    | Err e => Err (Wrapf "failed to create AES cipher: %w" [] e)
    | Ok block =>
        match cmac.New block with
        | Err e => Err (Wrapf "failed to create CMAC: %w" [] e)
        | Ok mac =>
            let blockSize := cmac.Size mac in
            let numBlocks :=
              Z.quot (int (int (outputLen + blockSize) - 1)) blockSize in
            let labelBytes := bytes_of_string label in
            let contextBytes := bytes_of_string context in
            let outputBits := uint32 (int (outputLen * 8)) in
            let fixedInput := labelBytes in
            let fixedInput := fixedInput ++ [0] in
            let fixedInput := fixedInput ++ contextBytes in
            let fixedInput := BigEndian_AppendUint32 fixedInput outputBits in
            let capacity := int (numBlocks * blockSize) in
            if (capacity <? 0) || (maxAlloc <? capacity) then
              Err (Panic "makeslice: cap out of range")
            else
              let result :=
                kdf_blocks (Z.to_nat numBlocks) 1 mac fixedInput [] in
              if (0 <=? outputLen) && (outputLen <=? capacity)
              then Ok (slice_to result outputLen)
              else Err (Panic "slice bounds out of range")
        end
    end.

Definition DeriveKey (masterKey : list byte) (outputLen : Z) (label : string)
           (counter : Z) : result (list byte) :=
  let context := FormatUint10 counter in
  SP800108CounterKDF masterKey label context outputLen.

Definition DeriveNonceKey (masterKey : list byte) (timeCounter : Z) :=
  DeriveKey masterKey (len masterKey) "NonceKey" timeCounter.

Definition DeriveNonce (nonceKey : list byte) (seqCounter : Z) :=
  DeriveKey nonceKey 12 "Nonce" seqCounter.

Definition DeriveEncryptionKeyIntermediate (masterKey : list byte)
           (timeCounter : Z) :=
  DeriveKey masterKey (len masterKey) "EncryptionKey" timeCounter.

Definition DeriveEncryptionKey (intermediateKey : list byte) (seqCounter : Z) :=
  DeriveKey intermediateKey (len intermediateKey) "Key" seqCounter.

Definition FullNonceDerivation (masterKey : list byte)
           (timeCounter seqCounter : Z) : result (list byte) :=
  match DeriveNonceKey masterKey timeCounter with
  | Err e => Err (Wrapf "failed to derive nonce key: %w" [] e)
  | Ok nonceKey => DeriveNonce nonceKey seqCounter
  end.

Definition FullEncryptionKeyDerivation (masterKey : list byte)
           (timeCounter seqCounter : Z) : result (list byte) :=
  match DeriveEncryptionKeyIntermediate masterKey timeCounter with
  | Err e => Err (Wrapf "failed to derive intermediate key: %w" [] e)
  | Ok intermediateKey => DeriveEncryptionKey intermediateKey seqCounter
  end.

(** ** internal/crypto/aesctr.go *)

Definition NonceSize : Z := 12.
Definition AES128KeySize : Z := 16.
Definition AES256KeySize : Z := 32.

Definition AESCTRDecrypt (key nonce ciphertext : list byte)
  : result (list byte) :=
  if negb (len key =? AES128KeySize) && negb (len key =? AES256KeySize) then
    Err (Errorf "key must be %d or %d bytes, got %d"
                [AES128KeySize; AES256KeySize; len key])
  else if negb (len nonce =? NonceSize) then
    Err (Errorf "nonce must be %d bytes, got %d" [NonceSize; len nonce])
  else
    match aes.NewCipher key with
    | Err e => Err (Wrapf "failed to create AES cipher: %w" [] e)
    | Ok block =>
        let iv := make aes.BlockSize in
        let iv := copy iv nonce in
        let plaintext := ctr.XORKeyStream block iv ciphertext in
        Ok plaintext
    end.

Definition AESCTREncrypt (key nonce plaintext : list byte)
  : result (list byte) :=
  AESCTRDecrypt key nonce plaintext.

(** ** internal/models/device.go and package time *)

(** A [time.Time]: seconds since the Unix epoch and nanoseconds within the
    second.  The zero [time.Time] is January 1 of year 1, 00:00:00 UTC. *)
Record Time : Type := mkTime { Unix : Z; Nanosecond : Z }.

Definition zero_Time : Time := mkTime (-62135596800) 0.

Definition IsZero (t : Time) : bool :=
  (Unix t =? -62135596800) && (Nanosecond t =? 0).

(** [models.EncryptedPacket]; the [Location] field is not read by the
    decryption code and is left out. *)
Record EncryptedPacket : Type := mkEncryptedPacket {
  Payload : list byte;
  RSSI : Z;
  Timestamp : Time
}.

(** ** internal/crypto/decrypt.go *)

Definition SecondsPerDay : Z := 86400.
Definition MinPacketSize : Z := 10.
Definition HeaderSize : Z := 2.
Definition ReservedSize : Z := 4.
Definition AuthTagOffset : Z := HeaderSize + ReservedSize.
Definition PayloadOffset : Z := AuthTagOffset + AuthTagSize.
Definition SequenceNumberMask : Z := 1023.
Definition DefaultSearchWindowDays : Z := 2.

Record ParsedPacket : Type := mkParsedPacket {
  SequenceNumber : Z;
  AuthTag : list byte;
  EncryptedPayload : list byte;
  RawPacket : list byte
}.

Definition ParsePacket (payload : list byte) : result ParsedPacket :=
  if len payload <? MinPacketSize then
    Err (Wrapf "%w: got %d bytes, need at least %d"
               [len payload; MinPacketSize] ErrPacketTooShort)
  else
    let seqRaw := BigEndian_Uint16 (slice payload 0 2) in
    let seqNum := Z.land seqRaw SequenceNumberMask in
    let authTag := make AuthTagSize in
    let authTag :=
      copy authTag (slice payload AuthTagOffset (AuthTagOffset + AuthTagSize)) in
    let encPayload :=
      if len payload >? PayloadOffset then
        copy (make (len payload - PayloadOffset))
             (slice_from payload PayloadOffset)
      else [] in
    Ok (mkParsedPacket seqNum authTag encPayload payload).

Record DecryptResult : Type := mkDecryptResult {
  ResultPayload : list byte;
  TimeCounter : Z;
  SeqCounter : Z
}.

Record DecryptOptions : Type := mkDecryptOptions {
  SearchWindowDays : Z;
  ExpectedTime : Time
}.

Definition DecryptOption : Type := DecryptOptions -> DecryptOptions.

Definition WithSearchWindow (days : Z) : DecryptOption :=
  fun o => mkDecryptOptions days (ExpectedTime o).

Definition WithExpectedTime (t : Time) : DecryptOption :=
  fun o => mkDecryptOptions (SearchWindowDays o) t.

(** Go's integer division truncates towards zero. *)
Definition TimeToCounter (t : Time) : Z :=
  uint32 (Z.quot (Unix t) SecondsPerDay).

Definition CounterToTime (counter : Z) : Time :=
  mkTime (counter * SecondsPerDay) 0.

Definition tryDecrypt (key : list byte) (parsed : ParsedPacket)
           (timeCounter : Z) : result DecryptResult :=
  let seqCounter := SequenceNumber parsed in
  let authData := slice_to (RawPacket parsed) AuthTagOffset in
  match FullEncryptionKeyDerivation key timeCounter seqCounter with
  | Err e => Err (Wrapf "key derivation failed: %w" [] e)
  | Ok encKey =>
      match ComputeAuthTag encKey authData with
      | Err e => Err (Wrapf "auth tag computation failed: %w" [] e)
      | Ok expectedTag =>
          match VerifyAuthTag encKey authData (AuthTag parsed) with
          | Err e => Err e
          | Ok valid =>
              if negb valid then Err ErrAuthenticationFail
              else
                match FullNonceDerivation key timeCounter seqCounter with
                | Err e => Err (Wrapf "nonce derivation failed: %w" [] e)
                | Ok nonce =>
                    match AESCTRDecrypt encKey nonce (EncryptedPayload parsed) with
                    | Err e => Err (Wrapf "decryption failed: %w" [] e)
                    | Ok plaintext =>
                        Ok (mkDecryptResult plaintext timeCounter seqCounter)
                    end
                end
          end
      end
  end.

(** The search loop of [Decrypt], [for tc := minCounter; tc <= maxCounter;
    tc++], entered with loop variable [tc].  The increment wraps at [2^32],
    so for [maxCounter = 2^32 - 1] the condition never fails and the Go loop
    stops only at a success; hence the fuel. *)
Fixpoint Decrypt_loop (fuel : nat) (key : list byte) (parsed : ParsedPacket)
         (tc maxCounter : Z) : option (result DecryptResult) :=
  match fuel with
  | O => None
  | S fuel' =>
      if tc <=? maxCounter then
        match tryDecrypt key parsed tc with
        | Ok result => Some (Ok result)
        | Err _ => Decrypt_loop fuel' key parsed (uint32 (tc + 1)) maxCounter
        end
      else Some (Err ErrDecryptionFailed)
  end.

Definition apply_options (options : DecryptOptions) (opts : list DecryptOption)
  : DecryptOptions :=
  fold_left (fun o opt => opt o) opts options.

(** [now] is the value of [time.Now().UTC()] at the call. *)
Definition Decrypt (fuel : nat) (now : Time) (key : list byte)
           (packet : EncryptedPacket) (opts : list DecryptOption)
  : option (result DecryptResult) :=
  if negb (len key =? AES128KeySize) && negb (len key =? AES256KeySize) then
    Some (Err ErrInvalidKey)
  else
    let options :=
      mkDecryptOptions DefaultSearchWindowDays (Timestamp packet) in
    let options := apply_options options opts in
    let options :=
      if IsZero (ExpectedTime options)
      then mkDecryptOptions (SearchWindowDays options) now
      else options in
    match ParsePacket (Payload packet) with
    | Err e => Some (Err e)
    | Ok parsed =>
        let baseCounter := TimeToCounter (ExpectedTime options) in
        let minCounter :=
          uint32 (baseCounter - uint32 (SearchWindowDays options)) in
        let maxCounter :=
          uint32 (baseCounter + uint32 (SearchWindowDays options)) in
        Decrypt_loop fuel key parsed minCounter maxCounter
    end.

Definition DecryptWithKnownCounter (key : list byte)
           (packet : EncryptedPacket) (timeCounter : Z)
  : result DecryptResult :=
  if negb (len key =? AES128KeySize) && negb (len key =? AES256KeySize) then
    Err ErrInvalidKey
  else
    match ParsePacket (Payload packet) with
    | Err e => Err e
    | Ok parsed => tryDecrypt key parsed timeCounter
    end.

(** The search loop of [FindTimeCounter]. *)
Fixpoint FindTimeCounter_loop (fuel : nat) (key : list byte)
         (parsed : ParsedPacket) (tc maxCounter : Z) : option (result Z) :=
  match fuel with
  | O => None
  | S fuel' =>
      if tc <=? maxCounter then
        let seqCounter := SequenceNumber parsed in
        match FullEncryptionKeyDerivation key tc seqCounter with
        | Err _ =>
            FindTimeCounter_loop fuel' key parsed (uint32 (tc + 1)) maxCounter
        | Ok encKey =>
            let authData := slice_to (RawPacket parsed) AuthTagOffset in
            match VerifyAuthTag encKey authData (AuthTag parsed) with
            | Ok true => Some (Ok tc)
            | _ =>
                FindTimeCounter_loop fuel' key parsed (uint32 (tc + 1))
                                     maxCounter
            end
        end
      else Some (Err ErrDecryptionFailed)
  end.

Definition FindTimeCounter (fuel : nat) (now : Time) (key : list byte)
           (packet : EncryptedPacket) (opts : list DecryptOption)
  : option (result Z) :=
  if negb (len key =? AES128KeySize) && negb (len key =? AES256KeySize) then
    Some (Err ErrInvalidKey)
  else
    let options :=
      mkDecryptOptions DefaultSearchWindowDays (Timestamp packet) in
    let options := apply_options options opts in
    let options :=
      if IsZero (ExpectedTime options)
      then mkDecryptOptions (SearchWindowDays options) now
      else options in
    match ParsePacket (Payload packet) with
    | Err e => Some (Err e)
    | Ok parsed =>
        let baseCounter := TimeToCounter (ExpectedTime options) in
        let minCounter :=
          uint32 (baseCounter - uint32 (SearchWindowDays options)) in
        let maxCounter :=
          uint32 (baseCounter + uint32 (SearchWindowDays options)) in
        FindTimeCounter_loop fuel key parsed minCounter maxCounter
    end.

(** ** Packet construction, as in TestDecryptIntegration (decrypt_test.go) *)

Definition packet_header (seqCounter : Z) : list byte :=
  let header := make 6 in
  uint8 (Z.shiftr seqCounter 8) :: uint8 (Z.land seqCounter 255)
        :: skipn 2 header.

Definition build_packet (key : list byte) (timeCounter seqCounter : Z)
           (plaintext : list byte) : result (list byte) :=
  match FullEncryptionKeyDerivation key timeCounter seqCounter with
  | Err e => Err e
  | Ok encKey =>
      match FullNonceDerivation key timeCounter seqCounter with
      | Err e => Err e
      | Ok nonce =>
          match AESCTREncrypt encKey nonce plaintext with
          | Err e => Err e
          | Ok ciphertext =>
              let header := packet_header seqCounter in
              match ComputeAuthTag encKey header with
              | Err e => Err e
              | Ok authTag => Ok (header ++ authTag ++ ciphertext)
              end
          end
      end
  end.

(** ** Go strings, encoding/hex and fmt *)

Definition str_len (s : string) : Z := Z.of_nat (String.length s).

(** [s[:n]] and [s[n:]] on the bytes of a string, for bounds in range. *)
Fixpoint str_take (n : nat) (s : string) : string :=
  match n, s with
  | S n', String c s' => String c (str_take n' s')
  | _, _ => EmptyString
  end.

Fixpoint str_drop (n : nat) (s : string) : string :=
  match n, s with
  | S n', String _ s' => str_drop n' s'
  | _, _ => s
  end.

(** [strings.Repeat(string(c), n)]. *)
Fixpoint str_repeat (c : ascii) (n : nat) : string :=
  match n with
  | O => EmptyString
  | S n' => String c (str_repeat c n')
  end.

Definition hextable : list ascii :=
  list_ascii_of_string "0123456789abcdef".

Definition hex_digit (v : Z) : ascii := nth (Z.to_nat v) hextable "0"%char.

(** [hex.EncodeToString(b)], also [fmt.Sprintf("%x", b)] for a byte slice:
    two lower-case digits per byte, high nibble first. *)
Fixpoint hex_EncodeToString (b : list byte) : string :=
  match b with
  | [] => EmptyString
  | v :: rest =>
      String (hex_digit (Z.shiftr v 4))
             (String (hex_digit (Z.land v 15)) (hex_EncodeToString rest))
  end.

(** [fmt.Sprintf("%08x", b)] for a slice of four bytes: the eight digits
    fill the width, so nothing is padded. *)
Definition Sprintf_08x (b : list byte) : string := hex_EncodeToString b.

(** [EncryptedPacket.PayloadHex] (internal/models/device.go). *)
Definition PayloadHex (p : EncryptedPacket) : string :=
  hex_EncodeToString (Payload p).

(** ** internal/tui/screens/blescan.go *)

Record PayloadFields : Type := mkPayloadFields {
  field_ver : string;
  field_seq : string;
  field_deviceID : string;
  field_authTag : string;
  field_encrypted : string
}.

Definition parsePayloadFields (payload : list byte) (maxEncryptedWidth : Z)
  : result PayloadFields :=
  if len payload <? 2 then Ok (mkPayloadFields "-" "-" "-" "-" "-")
  else
    let header := BigEndian_Uint16 (slice payload 0 2) in
    let version := Z.land (Z.shiftr header 10) 63 in
    let seqNo := Z.land header 1023 in
    let ver := FormatUint10 version in
    let seq := FormatUint10 seqNo in
    let deviceID :=
      if len payload >=? 6 then Sprintf_08x (slice payload 2 6) else "-"%string in
    let authTag :=
      if len payload >=? 10 then Sprintf_08x (slice payload 6 10)
      else "-"%string in
    if len payload >? 10 then
      let encPayload := slice_from payload 10 in
      let encrypted := hex_EncodeToString encPayload in
      if str_len encrypted >? maxEncryptedWidth then
        if maxEncryptedWidth - 3 <? 0 then
          Err (Panic "slice bounds out of range")
        else
          Ok (mkPayloadFields ver seq deviceID authTag
                (str_take (Z.to_nat (maxEncryptedWidth - 3)) encrypted
                 ++ "...")%string)
      else Ok (mkPayloadFields ver seq deviceID authTag encrypted)
    else Ok (mkPayloadFields ver seq deviceID authTag "-").

(** The width [updateTable] passes to [parsePayloadFields] for a terminal
    of [width] columns. *)
Definition encryptedDisplayWidth (width : Z) : Z :=
  let minEncrypted := 18 in
  if width >? 0 then
    let minTotal := 4 + 13 + 7 + 4 + 5 + 10 + 10 + minEncrypted in
    let extraSpace := width - minTotal in
    let extraSpace := if extraSpace <? 0 then 0 else extraSpace in
    minEncrypted + extraSpace
  else minEncrypted.

(** ** internal/tui/screens/devices.go and settings.go *)

Definition truncate (s : string) (maxLen : Z) : result string :=
  if str_len s <=? maxLen then Ok s
  else if maxLen <=? 3 then
    if maxLen <? 0 then Err (Panic "slice bounds out of range")
    else Ok (str_take (Z.to_nat maxLen) s)
  else Ok (str_take (Z.to_nat (maxLen - 3)) s ++ "...")%string.

Definition maskString (s : string) : string :=
  if str_len s <=? 6 then "****"%string
  else (str_take 2 s
        ++ str_repeat "*"%char (Z.to_nat (str_len s - 4))
        ++ str_drop (Z.to_nat (str_len s - 2)) s)%string.

(** ** Specification-side definitions *)

(** The options [Decrypt] and [FindTimeCounter] search with: the defaults,
    the caller's options applied in order, and the current time in place of
    a zero expected time. *)
Definition resolved_options (now : Time) (packet : EncryptedPacket)
           (opts : list DecryptOption) : DecryptOptions :=
  let options :=
    apply_options
      (mkDecryptOptions DefaultSearchWindowDays (Timestamp packet)) opts in
  if IsZero (ExpectedTime options)
  then mkDecryptOptions (SearchWindowDays options) now
  else options.

(** The candidate counter [tc] authenticates the packet: the encryption
    key derived for [tc] and the packet's sequence number verifies the
    packet's tag over the first six raw bytes. *)
Definition authenticates (key : list byte) (parsed : ParsedPacket) (tc : Z)
  : bool :=
  match FullEncryptionKeyDerivation key tc (SequenceNumber parsed) with
  | Ok encKey =>
      match VerifyAuthTag encKey (slice_to (RawPacket parsed) AuthTagOffset)
                          (AuthTag parsed) with
      | Ok true => true
      | _ => false
      end
  | Err _ => false
  end.

(** The same for a raw packet, parsed first. *)
Definition candidate_authenticates (key payload : list byte) (tc : Z) : bool :=
  match ParsePacket payload with
  | Ok parsed => authenticates key parsed tc
  | Err _ => false
  end.



(** The hash object [cmac.New] returns for the AES cipher of [key]. *)
Definition mac_of (key : list byte) : cmac.Hash :=
  let c := aes.mkBlock (aes.expandKey key) in
  let s0 := cmac.double (aes.Encrypt c (repeat 0 16)) in
  cmac.mkHash c s0 (cmac.double s0) [].


Definition valid_key (key : list byte) : Prop :=
  len key = 16 \/ len key = 32.

Definition result_map {A B} (f : A -> B) (r : result A) : result B :=
  match r with
  | Ok a => Ok (f a)
  | Err e => Err e
  end.

(** Test data of the repository's tests. *)
Definition key32 : list byte := map Z.of_nat (seq 0 32).
Definition key16 : list byte := map Z.of_nat (seq 0 16).
Definition rfc4493_key : list byte :=
  [43; 126; 21; 22; 40; 174; 210; 166; 171; 247; 21; 136; 9; 207; 79; 60].
Definition hello : list byte := bytes_of_string "Hello, Hubble!".

(** The packet that TestDecryptIntegration builds for [key32], time counter
    20000, sequence counter 42 and plaintext [hello]. *)
Definition packet_20000 : list byte :=
  [0; 42; 0; 0; 0; 0; 126; 191; 55; 91; 215; 71; 139; 255; 80; 33; 60; 72; 50;
   210; 176; 176; 6; 69].

(** [packet_20000] with its ciphertext replaced by three other bytes. *)
Definition packet_20000_tampered : list byte :=
  [0; 42; 0; 0; 0; 0; 126; 191; 55; 91; 1; 2; 3].

(** A key and two packets, built for time counters 20154 and 82169, whose
    four-byte tags also verify for the earlier counters 20151 and 74882. *)
Definition collision_key : list byte :=
  [0; 1; 2; 3; 4; 5; 6; 7; 8; 9; 10; 11; 0; 0; 1; 116].

Definition packet_20154 : list byte :=
  [1; 231; 0; 0; 0; 0; 76; 132; 168; 92; 103; 56; 192; 97; 163; 182; 201; 42;
   21; 192; 120; 30; 143; 222].

Definition packet_82169 : list byte :=
  [0; 42; 0; 0; 0; 0; 235; 126; 49; 141; 78; 88; 125; 56; 28; 73; 61; 67; 156;
   52; 71; 89; 213; 147].

(** Packets built for time counters 1 and 2^31 under [key16]. *)
Definition packet_1 : list byte :=
  [0; 0; 0; 0; 0; 0; 44; 210; 66; 121; 55; 7; 74; 198; 6; 194; 254; 168; 53;
   20; 156; 163; 133; 199].

Definition packet_2147483648 : list byte :=
  [0; 0; 0; 0; 0; 0; 84; 205; 162; 56; 58; 87; 227; 80; 247; 114; 81; 85; 39;
   3; 129; 164; 42; 13].

(** * Properties *)

(** ** Known vectors (cmac_test.go, FIPS 197) *)

Example aes128_fips197 :
  result_map (fun c => aes.Encrypt c
     [0; 17; 34; 51; 68; 85; 102; 119; 136; 153; 170; 187; 204; 221; 238; 255])
     (aes.NewCipher key16)
  = Ok [105; 196; 224; 216; 106; 123; 4; 48; 216; 205; 183; 128; 112; 180;
        197; 90].
Proof. vm_compute. reflexivity. Qed.

Example aes256_fips197 :
  result_map (fun c => aes.Encrypt c
     [0; 17; 34; 51; 68; 85; 102; 119; 136; 153; 170; 187; 204; 221; 238; 255])
     (aes.NewCipher key32)
  = Ok [142; 162; 183; 202; 81; 103; 69; 191; 234; 252; 73; 144; 75; 73; 96;
        137].
Proof. vm_compute. reflexivity. Qed.

Example cmac_rfc4493_empty :
  ComputeFullCMAC rfc4493_key []
  = Ok [187; 29; 105; 41; 233; 89; 55; 40; 127; 163; 125; 18; 155; 117; 103;
        70].
Proof. vm_compute. reflexivity. Qed.

Example cmac_rfc4493_16 :
  ComputeFullCMAC rfc4493_key
    [107; 193; 190; 226; 46; 64; 159; 150; 233; 61; 126; 17; 115; 147; 23; 42]
  = Ok [7; 10; 22; 180; 107; 77; 65; 68; 247; 155; 221; 157; 208; 74; 40; 124].
Proof. vm_compute. reflexivity. Qed.

Example cmac_rfc4493_40 :
  ComputeFullCMAC rfc4493_key
    [107; 193; 190; 226; 46; 64; 159; 150; 233; 61; 126; 17; 115; 147; 23; 42;
     174; 45; 138; 87; 30; 3; 172; 156; 158; 183; 111; 172; 69; 175; 142; 81;
     48; 200; 28; 70; 163; 92; 228; 17]
  = Ok [223; 166; 103; 71; 222; 154; 230; 48; 48; 202; 50; 97; 20; 151; 200;
        39].
Proof. vm_compute. reflexivity. Qed.

Example FormatUint10_12345 : FormatUint10 12345 = "12345"%string.
Proof. reflexivity. Qed.

(** ** Lengths *)

Lemma Ok_inj {A} (a b : A) : Ok a = Ok b -> a = b.
Proof. intros H. injection H as H. exact H. Qed.

Lemma len_nonneg {A} (l : list A) : 0 <= len l.
Proof. unfold len. lia. Qed.

Lemma xor16_length a b : length (xor16 a b) = 16%nat.
Proof. unfold xor16. rewrite length_map, length_seq. reflexivity. Qed.

Lemma rounds_length rks : forall st,
  length st = 16%nat -> length (aes.rounds rks st) = 16%nat.
Proof.
  induction rks as [|rk more IH]; intros st Hst; [exact Hst|].
  destruct more as [|rk' more'].
  - apply xor16_length.
  - change (length (aes.rounds (rk' :: more')
                      (xor16 (aes.MixColumns (aes.SubShift st)) rk)) = 16%nat).
    apply IH, xor16_length.
Qed.

Lemma Encrypt_length c src : length (aes.Encrypt c src) = 16%nat.
Proof.
  unfold aes.Encrypt. destruct (aes.enc c).
  - apply xor16_length.
  - apply rounds_length, xor16_length.
Qed.

Lemma chain_length fuel h : forall x m,
  length x = 16%nat -> length (cmac.chain fuel h x m) = 16%nat.
Proof.
  induction fuel as [|fuel IH]; intros x m Hx; [exact Hx|].
  cbn [cmac.chain]. destruct (Nat.leb (length m) 16).
  - apply Encrypt_length.
  - apply IH, Encrypt_length.
Qed.

Lemma Sum_length h : length (cmac.Sum h) = 16%nat.
Proof. apply chain_length, repeat_length. Qed.

Lemma kdf_blocks_length n : forall i mac fixedInput result,
  length (kdf_blocks n i mac fixedInput result)
  = (length result + 16 * n)%nat.
Proof.
  induction n as [|n IH]; intros; cbn [kdf_blocks]; [lia|].
  rewrite IH, length_app, Sum_length. lia.
Qed.

(** ** The primitives succeed on keys of 16 or 32 bytes *)

Lemma valid_key_check key :
  valid_key key -> negb (len key =? 16) && negb (len key =? 32) = false.
Proof. intros [H|H]; rewrite H; reflexivity. Qed.

Lemma invalid_key_check key :
  ~ valid_key key -> negb (len key =? 16) && negb (len key =? 32) = true.
Proof.
  unfold valid_key. intros H.
  destruct (Z.eqb_spec (len key) 16); [tauto|].
  destruct (Z.eqb_spec (len key) 32); [tauto|]. reflexivity.
Qed.

Lemma NewCipher_ok key :
  valid_key key -> aes.NewCipher key = Ok (aes.mkBlock (aes.expandKey key)).
Proof. unfold aes.NewCipher. intros [H|H]; rewrite H; reflexivity. Qed.

Lemma cmac_New_ok key :
  cmac.New (aes.mkBlock (aes.expandKey key)) = Ok (mac_of key).
Proof. reflexivity. Qed.

Lemma ComputeFullCMAC_ok key data :
  valid_key key ->
  ComputeFullCMAC key data = Ok (cmac.Sum (cmac.Write (mac_of key) data)).
Proof.
  intros Hk. unfold ComputeFullCMAC.
  rewrite (valid_key_check _ Hk), (NewCipher_ok _ Hk), cmac_New_ok.
  reflexivity.
Qed.

Lemma ComputeAuthTag_ok key data :
  valid_key key ->
  ComputeAuthTag key data
  = Ok (firstn 4 (cmac.Sum (cmac.Write (mac_of key) data))).
Proof.
  intros Hk. unfold ComputeAuthTag.
  rewrite (valid_key_check _ Hk), (NewCipher_ok _ Hk), cmac_New_ok.
  reflexivity.
Qed.



(** ** Constant-time comparison decides equality *)

Lemma accumulate_zero x : forall y v,
  length x = length y ->
  (subtle.accumulate v x y = 0 <-> v = 0 /\ x = y).
Proof.
  induction x as [|a x IH]; intros [|b y] v Hlen; try discriminate; cbn.
  - tauto.
  - injection Hlen as Hlen. rewrite (IH y _ Hlen), Z.lor_eq_0_iff, Z.lxor_eq_0_iff.
    split.
    + intros [[Hv Hab] Hxy]. subst. tauto.
    + intros [Hv Heq]. injection Heq as Hab Hxy. tauto.
Qed.

Lemma ConstantTimeCompare_spec x y :
  subtle.ConstantTimeCompare x y = 1 <-> x = y.
Proof.
  unfold subtle.ConstantTimeCompare, len.
  destruct (Z.eqb_spec (Z.of_nat (length x)) (Z.of_nat (length y))) as [Hl|Hl];
    cbn [negb].
  - apply Nat2Z.inj in Hl.
    destruct (Z.eqb_spec (subtle.accumulate 0 x y) 0) as [H0|H0].
    + apply accumulate_zero in H0; [|exact Hl]. tauto.
    + split; [discriminate|]. intros ->. exfalso. apply H0.
      apply accumulate_zero; auto.
  - split; [discriminate|]. intros ->. tauto.
Qed.

Lemma VerifyAuthTag_ok key data tag :
  valid_key key -> len tag = 4 ->
  exists b, VerifyAuthTag key data tag = Ok b
            /\ (b = true <-> ComputeAuthTag key data = Ok tag).
Proof.
  intros Hk Ht. unfold VerifyAuthTag, AuthTagSize. rewrite Ht. cbn [Z.eqb Pos.eqb negb].
  rewrite ComputeAuthTag_ok by exact Hk. eexists. split; [reflexivity|].
  rewrite Z.eqb_eq, ConstantTimeCompare_spec.
  split; [intros ->; reflexivity | intros H; injection H as H; exact H].
Qed.

(** ** The KDF loop computes the MAC blocks in order *)


#[local] Opaque cmac.Sum aes.Encrypt aes.expandKey.



Lemma int_small x : is_int x -> int x = x.
Proof. unfold is_int, int. intros H. rewrite Z.mod_small; lia. Qed.

Lemma uint32_int x : uint32 (int x) = uint32 x.
Proof.
  unfold uint32, int.
  rewrite (Z.mod_eq (x + 9223372036854775808) 18446744073709551616) by lia.
  set (q := (x + 9223372036854775808) / 18446744073709551616).
  replace (x + 9223372036854775808 - 18446744073709551616 * q
           - 9223372036854775808)
    with (x + (- 4294967296 * q) * 4294967296) by lia.
  apply Z_mod_plus_full.
Qed.

Lemma numBlocks_bound outputLen :
  0 <= outputLen ->
  0 <= Z.quot (outputLen + 16 - 1) 16 /\
  outputLen <= Z.quot (outputLen + 16 - 1) 16 * 16 <= outputLen + 15.
Proof.
  intros H. rewrite Z.quot_div_nonneg by lia.
  pose proof (Z.div_mod (outputLen + 16 - 1) 16 ltac:(lia)).
  pose proof (Z.mod_pos_bound (outputLen + 16 - 1) 16 ltac:(lia)).
  split; [apply Z.div_pos; lia | lia].
Qed.

(** Within the allocation limit no sum or product of the KDF wraps. *)
Lemma numBlocks_int outputLen :
  0 <= outputLen <= maxAlloc ->
  int (int (outputLen + 16) - 1) = outputLen + 16 - 1
  /\ int (Z.quot (outputLen + 16 - 1) 16 * 16)
     = Z.quot (outputLen + 16 - 1) 16 * 16
  /\ Z.quot (outputLen + 16 - 1) 16 * 16 <= maxAlloc.
Proof.
  unfold maxAlloc. intros H.
  destruct (numBlocks_bound outputLen ltac:(lia)) as [Hq0 Hq].
  rewrite (int_small (outputLen + 16)) by (unfold is_int; lia).
  rewrite (int_small (outputLen + 16 - 1)) by (unfold is_int; lia).
  rewrite int_small by (unfold is_int; lia).
  split; [reflexivity|]. split; [reflexivity|]. lia.
Qed.

Lemma SP800108CounterKDF_ok key label context outputLen :
  valid_key key -> 0 <= outputLen <= maxAlloc ->
  SP800108CounterKDF key label context outputLen
  = Ok (firstn (Z.to_nat outputLen)
          (kdf_blocks (Z.to_nat (Z.quot (outputLen + 16 - 1) 16)) 1 (mac_of key)
             (BigEndian_AppendUint32
                ((bytes_of_string label ++ [0]) ++ bytes_of_string context)
                (uint32 (outputLen * 8))) [])).
Proof.
  intros Hk HL. unfold SP800108CounterKDF.
  rewrite (valid_key_check _ Hk), (NewCipher_ok _ Hk), cmac_New_ok.
  cbv zeta. unfold cmac.Size.
  destruct (numBlocks_int _ HL) as (-> & -> & Hcap).
  rewrite uint32_int.
  destruct (numBlocks_bound outputLen ltac:(lia)) as [Hn0 HnL].
  destruct (Z.ltb_spec (Z.quot (outputLen + 16 - 1) 16 * 16) 0); [lia|].
  destruct (Z.ltb_spec maxAlloc (Z.quot (outputLen + 16 - 1) 16 * 16)); [lia|].
  destruct (Z.leb_spec 0 outputLen); [|lia].
  destruct (Z.leb_spec outputLen (Z.quot (outputLen + 16 - 1) 16 * 16)); [|lia].
  cbn [andb orb]. unfold slice_to, slice. rewrite Z.sub_0_r. reflexivity.
Qed.

Lemma SP800108CounterKDF_length key label context outputLen :
  valid_key key -> 0 <= outputLen <= maxAlloc ->
  exists out, SP800108CounterKDF key label context outputLen = Ok out
              /\ len out = outputLen.
Proof.
  intros Hk HL. rewrite SP800108CounterKDF_ok by assumption.
  eexists. split; [reflexivity|].
  unfold len. rewrite length_firstn, kdf_blocks_length.
  destruct (numBlocks_bound outputLen ltac:(lia)) as [Hn0 HnL].
  cbn [length]. lia.
Qed.

(** ** The key schedule *)

Lemma valid_key_len key out :
  valid_key key -> len out = len key -> valid_key out.
Proof. unfold valid_key. intros H ->. exact H. Qed.

Lemma DeriveKey_ok key outputLen label counter :
  valid_key key -> 0 <= outputLen <= maxAlloc ->
  exists out, DeriveKey key outputLen label counter = Ok out
              /\ len out = outputLen.
Proof. intros. unfold DeriveKey. apply SP800108CounterKDF_length; assumption. Qed.

Lemma valid_key_alloc key : valid_key key -> 0 <= len key <= maxAlloc.
Proof. unfold valid_key, maxAlloc. lia. Qed.

Lemma FullEncryptionKeyDerivation_ok key tc sq :
  valid_key key ->
  exists encKey, FullEncryptionKeyDerivation key tc sq = Ok encKey
                 /\ valid_key encKey.
Proof.
  intros Hk. unfold FullEncryptionKeyDerivation,
    DeriveEncryptionKeyIntermediate, DeriveEncryptionKey.
  destruct (DeriveKey_ok key (len key) "EncryptionKey" tc Hk
              (valid_key_alloc _ Hk))
    as (im & -> & Him).
  assert (Hk' : valid_key im) by (eapply valid_key_len; eassumption).
  destruct (DeriveKey_ok im (len im) "Key" sq Hk' (valid_key_alloc _ Hk'))
    as (ek & -> & Hek).
  exists ek. split; [reflexivity|]. eapply valid_key_len; eassumption.
Qed.

Lemma FullNonceDerivation_ok key tc sq :
  valid_key key ->
  exists nonce, FullNonceDerivation key tc sq = Ok nonce /\ len nonce = 12.
Proof.
  intros Hk. unfold FullNonceDerivation, DeriveNonceKey, DeriveNonce.
  destruct (DeriveKey_ok key (len key) "NonceKey" tc Hk (valid_key_alloc _ Hk))
    as (nk & -> & Hnk).
  assert (Hk' : valid_key nk) by (eapply valid_key_len; eassumption).
  apply DeriveKey_ok; [exact Hk' | unfold maxAlloc; lia].
Qed.

(** ** Counter mode is an involution *)

Lemma xor_bytes_length src : forall ks,
  (length src <= length ks)%nat -> length (ctr.xor_bytes src ks) = length src.
Proof.
  induction src as [|s src IH]; intros [|k ks] H; cbn in *; try lia.
  rewrite IH; lia.
Qed.

Lemma xor_bytes_involutive src : forall ks,
  (length src <= length ks)%nat ->
  ctr.xor_bytes (ctr.xor_bytes src ks) ks = src.
Proof.
  induction src as [|s src IH]; intros [|k ks] H; cbn in *;
    try lia; try reflexivity.
  rewrite IH by lia. f_equal.
  rewrite Z.lxor_assoc, Z.lxor_nilpotent, Z.lxor_0_r. reflexivity.
Qed.

Lemma keystream_length c n : forall counter,
  length (ctr.keystream c counter n) = (16 * n)%nat.
Proof.
  induction n as [|n IH]; intros counter; cbn [ctr.keystream]; [reflexivity|].
  rewrite length_app, Encrypt_length, IH. lia.
Qed.

Lemma blocks_cover n : (n <= 16 * Nat.div (n + 15) 16)%nat.
Proof.
  pose proof (Nat.div_mod_eq (n + 15) 16).
  pose proof (Nat.mod_upper_bound (n + 15) 16). lia.
Qed.

Lemma XORKeyStream_length c iv src :
  length (ctr.XORKeyStream c iv src) = length src.
Proof.
  unfold ctr.XORKeyStream. apply xor_bytes_length.
  rewrite keystream_length. apply blocks_cover.
Qed.

Lemma XORKeyStream_involutive c iv src :
  ctr.XORKeyStream c iv (ctr.XORKeyStream c iv src) = src.
Proof.
  unfold ctr.XORKeyStream at 1. rewrite XORKeyStream_length.
  unfold ctr.XORKeyStream. apply xor_bytes_involutive.
  rewrite keystream_length. apply blocks_cover.
Qed.

Lemma AESCTRDecrypt_ok key nonce data :
  valid_key key -> len nonce = 12 ->
  AESCTRDecrypt key nonce data
  = Ok (ctr.XORKeyStream (aes.mkBlock (aes.expandKey key))
                         (copy (make aes.BlockSize) nonce) data).
Proof.
  intros Hk Hn. unfold AESCTRDecrypt, AES128KeySize, AES256KeySize, NonceSize.
  rewrite (valid_key_check _ Hk), Hn, (NewCipher_ok _ Hk). reflexivity.
Qed.

Lemma AESCTR_roundtrip key nonce plaintext ciphertext :
  valid_key key -> len nonce = 12 ->
  AESCTREncrypt key nonce plaintext = Ok ciphertext ->
  AESCTRDecrypt key nonce ciphertext = Ok plaintext.
Proof.
  intros Hk Hn. unfold AESCTREncrypt.
  rewrite !AESCTRDecrypt_ok by assumption. intros H. injection H as <-.
  rewrite XORKeyStream_involutive. reflexivity.
Qed.

(** ** The packet codec *)

Lemma copy_exact dst src : length dst = length src -> copy dst src = src.
Proof.
  intros H. unfold copy. rewrite H, firstn_all.
  rewrite skipn_all2 by lia. apply app_nil_r.
Qed.

Lemma ParsePacket_ok payload :
  10 <= len payload ->
  ParsePacket payload
  = Ok (mkParsedPacket
          (Z.land (BigEndian_Uint16 (firstn 2 payload)) 1023)
          (firstn 4 (skipn 6 payload)) (skipn 10 payload) payload).
Proof.
  intros Hlen. unfold ParsePacket, MinPacketSize, PayloadOffset, AuthTagOffset,
    HeaderSize, ReservedSize, AuthTagSize, SequenceNumberMask.
  destruct (Z.ltb_spec (len payload) 10); [lia|].
  f_equal. unfold len in *.
  assert (Htag : copy (make 4) (slice payload (2 + 4) (2 + 4 + 4))
                 = firstn 4 (skipn 6 payload)).
  { apply copy_exact. unfold make, slice. cbn [Z.add Pos.add Pos.succ Z.sub Z.opp
      Z.pos_sub Z.to_nat Pos.to_nat Pos.iter_op Nat.add].
    change (Z.to_nat (2 + 4 + 4 - (2 + 4))) with 4%nat.
    change (Z.to_nat (2 + 4)) with 6%nat.
    rewrite repeat_length, length_firstn, length_skipn. lia. }
  assert (Henc : (if Z.of_nat (length payload) >? 2 + 4 + 4
                  then copy (make (Z.of_nat (length payload) - (2 + 4 + 4)))
                            (slice_from payload (2 + 4 + 4))
                  else []) = skipn 10 payload).
  { unfold slice_from. change (Z.to_nat (2 + 4 + 4)) with 10%nat.
    destruct (Z.gtb_spec (Z.of_nat (length payload)) (2 + 4 + 4)).
    - apply copy_exact. unfold make. rewrite repeat_length, length_skipn. lia.
    - symmetry. apply skipn_all2. lia. }
  rewrite Htag, Henc. reflexivity.
Qed.

Lemma lor_shiftl_8 a b :
  0 <= b < 256 -> Z.lor (Z.shiftl a 8) b = a * 256 + b.
Proof.
  intros Hb. rewrite Z.shiftl_mul_pow2 by lia. change (2 ^ 8) with 256.
  rewrite <- Z.add_lor_land.
  assert (H0 : Z.land (a * 256) b = 0).
  { apply Z.bits_inj'. intros n Hn. rewrite Z.land_spec, Z.bits_0.
    destruct (Z.ltb_spec n 8) as [Hlt|Hge].
    - change 256 with (2 ^ 8). rewrite Z.mul_pow2_bits_low by lia. reflexivity.
    - destruct (Z.eq_dec b 0) as [->|Hnz].
      + rewrite Z.bits_0. apply andb_false_r.
      + rewrite (Z.bits_above_log2 b n), andb_false_r; [reflexivity | lia |].
        apply Z.lt_le_trans with 8; [|exact Hge].
        apply Z.log2_lt_pow2; lia. }
  rewrite H0. lia.
Qed.

Lemma land_1023 x : Z.land x 1023 = x mod 1024.
Proof. change 1023 with (Z.ones 10). rewrite Z.land_ones by lia. reflexivity. Qed.

Lemma header_sequence s :
  0 <= s <= 1023 ->
  Z.land (BigEndian_Uint16 (firstn 2 (packet_header s))) 1023 = s.
Proof.
  intros Hs. unfold packet_header, BigEndian_Uint16, uint8. cbn [firstn nth].
  change 255 with (Z.ones 8). rewrite Z.land_ones, Z.shiftr_div_pow2 by lia.
  change (2 ^ 8) with 256.
  rewrite lor_shiftl_8 by (apply Z.mod_pos_bound; lia).
  rewrite land_1023, Z.mod_mod by lia.
  rewrite (Z.mod_small (s / 256) 256)
    by (split; [apply Z.div_pos; lia | apply Z.div_lt_upper_bound; lia]).
  rewrite Z.mul_comm, <- Z.div_mod by lia. apply Z.mod_small. lia.
Qed.

Lemma packet_header_length s : length (packet_header s) = 6%nat.
Proof. reflexivity. Qed.

Lemma ParsePacket_assembled s tag ciphertext :
  0 <= s <= 1023 -> length tag = 4%nat ->
  ParsePacket (packet_header s ++ tag ++ ciphertext)
  = Ok (mkParsedPacket s tag ciphertext
                       (packet_header s ++ tag ++ ciphertext)).
Proof.
  intros Hs Ht.
  destruct tag as [|t0 [|t1 [|t2 [|t3 [|]]]]]; try discriminate.
  rewrite ParsePacket_ok
    by (unfold len; rewrite !length_app, packet_header_length;
        cbn [length]; lia).
  assert (E : firstn 2 (packet_header s ++ [t0; t1; t2; t3] ++ ciphertext)
              = firstn 2 (packet_header s)) by reflexivity.
  rewrite E, header_sequence by exact Hs. reflexivity.
Qed.

Lemma ParsePacket_inv payload parsed :
  ParsePacket payload = Ok parsed ->
  10 <= len payload /\
  parsed = mkParsedPacket
             (Z.land (BigEndian_Uint16 (firstn 2 payload)) 1023)
             (firstn 4 (skipn 6 payload)) (skipn 10 payload) payload.
Proof.
  intros H. destruct (Z.ltb_spec (len payload) 10) as [Hlt|Hge].
  - unfold ParsePacket, MinPacketSize in H.
    destruct (Z.ltb_spec (len payload) 10); [discriminate | lia].
  - rewrite ParsePacket_ok in H by exact Hge. injection H as <-. auto.
Qed.

Lemma ParsePacket_tag_length payload parsed :
  ParsePacket payload = Ok parsed -> len (AuthTag parsed) = 4.
Proof.
  intros H. destruct (ParsePacket_inv _ _ H) as [Hlen ->].
  cbn [AuthTag]. unfold len in *. rewrite length_firstn, length_skipn. lia.
Qed.

(** ** The search loops *)

Lemma uint32_small x : 0 <= x < 4294967296 -> uint32 x = x.
Proof. intros H. unfold uint32. apply Z.mod_small. exact H. Qed.

Lemma uint32_range x : 0 <= uint32 x < 4294967296.
Proof. unfold uint32. apply Z.mod_pos_bound. lia. Qed.

(** One step of [FindTimeCounter]'s loop, for any key and packet. *)
Lemma FindTimeCounter_loop_step fuel key parsed tc maxCounter :
  FindTimeCounter_loop (S fuel) key parsed tc maxCounter
  = if tc <=? maxCounter then
      if authenticates key parsed tc then Some (Ok tc)
      else FindTimeCounter_loop fuel key parsed (uint32 (tc + 1)) maxCounter
    else Some (Err ErrDecryptionFailed).
Proof.
  cbn [FindTimeCounter_loop]. unfold authenticates. cbv zeta.
  destruct (tc <=? maxCounter); [|reflexivity].
  destruct (FullEncryptionKeyDerivation key tc (SequenceNumber parsed));
    [|reflexivity].
  destruct (VerifyAuthTag a (slice_to (RawPacket parsed) AuthTagOffset)
                          (AuthTag parsed)) as [[|]|]; reflexivity.
Qed.

(** What the entry points establish before they search: a key of 16 or 32
    bytes and a parsed packet with a four-byte tag. *)
Section Search.

Variable key : list byte.
Variable parsed : ParsedPacket.
Hypothesis Hkey : valid_key key.
Hypothesis Htag : len (AuthTag parsed) = 4.

Lemma tryDecrypt_success tc :
  authenticates key parsed tc = true ->
  exists encKey nonce,
    FullEncryptionKeyDerivation key tc (SequenceNumber parsed) = Ok encKey
    /\ valid_key encKey
    /\ FullNonceDerivation key tc (SequenceNumber parsed) = Ok nonce
    /\ len nonce = 12
    /\ tryDecrypt key parsed tc
       = result_map (fun p => mkDecryptResult p tc (SequenceNumber parsed))
                    (AESCTRDecrypt encKey nonce (EncryptedPayload parsed)).
Proof.
  intros Ha. unfold authenticates in Ha. unfold tryDecrypt. cbv zeta.
  destruct (FullEncryptionKeyDerivation_ok key tc (SequenceNumber parsed) Hkey)
    as (ek & Hek & Hvk).
  destruct (FullNonceDerivation_ok key tc (SequenceNumber parsed) Hkey)
    as (nonce & Hn & Hnl).
  rewrite Hek in *. rewrite ComputeAuthTag_ok by exact Hvk.
  destruct (VerifyAuthTag ek (slice_to (RawPacket parsed) AuthTagOffset)
                          (AuthTag parsed)) as [[|]|]; try discriminate.
  cbn [negb]. rewrite Hn. exists ek, nonce.
  repeat (split; [first [reflexivity | assumption]|]).
  rewrite AESCTRDecrypt_ok by assumption. reflexivity.
Qed.

Lemma tryDecrypt_failure tc :
  authenticates key parsed tc = false ->
  tryDecrypt key parsed tc = Err ErrAuthenticationFail.
Proof.
  intros Ha. unfold authenticates in Ha. unfold tryDecrypt. cbv zeta.
  destruct (FullEncryptionKeyDerivation_ok key tc (SequenceNumber parsed) Hkey)
    as (ek & Hek & Hvk).
  rewrite Hek in *. rewrite ComputeAuthTag_ok by exact Hvk.
  destruct (VerifyAuthTag_ok ek (slice_to (RawPacket parsed) AuthTagOffset)
                             (AuthTag parsed) Hvk Htag) as (b & Hb & _).
  rewrite Hb in *. destruct b; [discriminate | reflexivity].
Qed.

Lemma tryDecrypt_outcome tc :
  (authenticates key parsed tc = true /\
   exists plaintext,
     tryDecrypt key parsed tc
     = Ok (mkDecryptResult plaintext tc (SequenceNumber parsed)))
  \/ (authenticates key parsed tc = false /\
      tryDecrypt key parsed tc = Err ErrAuthenticationFail).
Proof.
  destruct (authenticates key parsed tc) eqn:Ha.
  - left. split; [reflexivity|].
    destruct (tryDecrypt_success tc Ha)
      as (ek & nonce & _ & Hvk & _ & Hnl & ->).
    rewrite AESCTRDecrypt_ok by assumption. eexists. reflexivity.
  - right. split; [reflexivity|]. apply tryDecrypt_failure, Ha.
Qed.

Lemma Decrypt_loop_step fuel tc maxCounter :
  Decrypt_loop (S fuel) key parsed tc maxCounter
  = if tc <=? maxCounter then
      if authenticates key parsed tc then Some (tryDecrypt key parsed tc)
      else Decrypt_loop fuel key parsed (uint32 (tc + 1)) maxCounter
    else Some (Err ErrDecryptionFailed).
Proof.
  cbn [Decrypt_loop]. destruct (tc <=? maxCounter); [|reflexivity].
  destruct (tryDecrypt_outcome tc) as [[-> [pt ->]] | [-> ->]]; reflexivity.
Qed.

Lemma loops_agree maxCounter :
  forall fuel tc,
    FindTimeCounter_loop fuel key parsed tc maxCounter
    = option_map (result_map TimeCounter)
                 (Decrypt_loop fuel key parsed tc maxCounter).
Proof.
  induction fuel as [|fuel IH]; intros tc; [reflexivity|].
  rewrite FindTimeCounter_loop_step, Decrypt_loop_step.
  destruct (tc <=? maxCounter); [|reflexivity].
  destruct (tryDecrypt_outcome tc) as [[-> [pt ->]] | [-> _]];
    [reflexivity | apply IH].
Qed.

(** A window without an authenticating candidate is exhausted. *)
Lemma Decrypt_loop_exhaust maxCounter :
  maxCounter < 4294967295 ->
  forall n tc fuel,
    0 <= tc -> n = Z.to_nat (maxCounter + 1 - tc) -> (n < fuel)%nat ->
    (forall c, tc <= c <= maxCounter -> authenticates key parsed c = false) ->
    Decrypt_loop fuel key parsed tc maxCounter = Some (Err ErrDecryptionFailed).
Proof.
  intros Hmax. induction n as [|n IH]; intros tc fuel Htc Hn Hf Hall;
    (destruct fuel as [|fuel]; [lia|]);
    rewrite Decrypt_loop_step;
    destruct (Z.leb_spec tc maxCounter) as [Hle|Hgt]; try reflexivity;
    try lia.
  rewrite (Hall tc) by lia. rewrite uint32_small by lia.
  apply (IH (tc + 1)); try lia. intros c Hc. apply Hall. lia.
Qed.

(** The loop returns at the first authenticating candidate [c]. *)
Lemma Decrypt_loop_first maxCounter c :
  c <= maxCounter -> maxCounter < 4294967296 ->
  authenticates key parsed c = true ->
  forall n tc fuel,
    0 <= tc <= c -> n = Z.to_nat (c - tc) -> (n < fuel)%nat ->
    (forall c', tc <= c' < c -> authenticates key parsed c' = false) ->
    Decrypt_loop fuel key parsed tc maxCounter
    = Some (tryDecrypt key parsed c).
Proof.
  intros Hc Hmax Ha.
  induction n as [|n IH]; intros tc fuel Htc Hn Hf Hall;
    (destruct fuel as [|fuel]; [lia|]);
    rewrite Decrypt_loop_step;
    (destruct (Z.leb_spec tc maxCounter) as [Hle|Hgt]; [|lia]).
  - assert (tc = c) by lia. subst tc. rewrite Ha. reflexivity.
  - rewrite (Hall tc) by lia. rewrite uint32_small by lia.
    apply (IH (tc + 1)); try lia. intros c' Hc'. apply Hall. lia.
Qed.

(** With [maxCounter = 2^32 - 1] the loop condition always holds: the loop
    leaves only through a success and never reports exhaustion. *)
Lemma Decrypt_loop_full_range fuel :
  forall tc e,
    0 <= tc < 4294967296 ->
    Decrypt_loop fuel key parsed tc 4294967295 <> Some (Err e).
Proof.
  induction fuel as [|fuel IH]; intros tc e Htc; [discriminate|].
  rewrite Decrypt_loop_step.
  destruct (Z.leb_spec tc 4294967295) as [_|Hgt]; [|lia].
  destruct (tryDecrypt_outcome tc) as [[-> [pt ->]] | [-> _]];
    [discriminate|].
  apply IH, uint32_range.
Qed.

(** [DecryptWithKnownCounter] has no loop: a tag mismatch is surfaced as
    [ErrAuthenticationFail]. *)
Lemma DecryptWithKnownCounter_outcome packet tc :
  ParsePacket (Payload packet) = Ok parsed ->
  DecryptWithKnownCounter key packet tc = tryDecrypt key parsed tc
  /\ ((exists r, DecryptWithKnownCounter key packet tc = Ok r)
      \/ DecryptWithKnownCounter key packet tc = Err ErrAuthenticationFail).
Proof.
  intros Hp. unfold DecryptWithKnownCounter, AES128KeySize, AES256KeySize.
  rewrite (valid_key_check _ Hkey), Hp. split; [reflexivity|].
  destruct (tryDecrypt_outcome tc) as [[_ [pt ->]] | [_ ->]]; eauto.
Qed.

End Search.

(** Among the candidates from [lo] up to an authenticating [t] there is a
    first authenticating one. *)
Lemma first_authenticating key parsed t :
  authenticates key parsed t = true ->
  forall n lo, n = Z.to_nat (t - lo) -> lo <= t ->
    exists c, lo <= c <= t /\ authenticates key parsed c = true
              /\ forall c', lo <= c' < c -> authenticates key parsed c' = false.
Proof.
  intros Ha. induction n as [|n IH]; intros lo Hn Hlo.
  - exists t. split; [lia|]. split; [exact Ha | intros; lia].
  - destruct (authenticates key parsed lo) eqn:Hl.
    + exists lo. split; [lia|]. split; [exact Hl | intros; lia].
    + destruct (IH (lo + 1)) as (c & Hc & Hac & Hbefore); try lia.
      exists c. split; [lia|]. split; [exact Hac|].
      intros c' Hc'. destruct (Z.eq_dec c' lo) as [->|]; [exact Hl|].
      apply Hbefore. lia.
Qed.

Lemma Decrypt_unfold fuel now key packet opts parsed :
  valid_key key -> ParsePacket (Payload packet) = Ok parsed ->
  Decrypt fuel now key packet opts
  = let o := resolved_options now packet opts in
    let b := TimeToCounter (ExpectedTime o) in
    Decrypt_loop fuel key parsed
      (uint32 (b - uint32 (SearchWindowDays o)))
      (uint32 (b + uint32 (SearchWindowDays o))).
Proof.
  intros Hk Hp. unfold Decrypt, resolved_options, AES128KeySize, AES256KeySize.
  rewrite (valid_key_check _ Hk). cbv zeta. rewrite Hp. reflexivity.
Qed.

Lemma FindTimeCounter_unfold fuel now key packet opts parsed :
  valid_key key -> ParsePacket (Payload packet) = Ok parsed ->
  FindTimeCounter fuel now key packet opts
  = let o := resolved_options now packet opts in
    let b := TimeToCounter (ExpectedTime o) in
    FindTimeCounter_loop fuel key parsed
      (uint32 (b - uint32 (SearchWindowDays o)))
      (uint32 (b + uint32 (SearchWindowDays o))).
Proof.
  intros Hk Hp.
  unfold FindTimeCounter, resolved_options, AES128KeySize, AES256KeySize.
  rewrite (valid_key_check _ Hk). cbv zeta. rewrite Hp. reflexivity.
Qed.

(** The fuel only bounds the search: two runs that both stop agree. *)
Lemma Decrypt_loop_fuel key parsed maxCounter :
  forall f1 f2 tc r1 r2,
    Decrypt_loop f1 key parsed tc maxCounter = Some r1 ->
    Decrypt_loop f2 key parsed tc maxCounter = Some r2 ->
    r1 = r2.
Proof.
  induction f1 as [|f1 IH]; intros f2 tc r1 r2 H1 H2; [discriminate|].
  destruct f2 as [|f2]; [discriminate|]. cbn [Decrypt_loop] in H1, H2.
  destruct (tc <=? maxCounter); [|congruence].
  destruct (tryDecrypt key parsed tc); [congruence|].
  eapply IH; eassumption.
Qed.

Lemma Decrypt_fuel f1 f2 now key packet opts r1 r2 :
  Decrypt f1 now key packet opts = Some r1 ->
  Decrypt f2 now key packet opts = Some r2 ->
  r1 = r2.
Proof.
  unfold Decrypt.
  destruct (negb (len key =? AES128KeySize) && negb (len key =? AES256KeySize));
    [congruence|].
  cbv zeta. destruct (ParsePacket (Payload packet)); [|congruence].
  apply Decrypt_loop_fuel.
Qed.


(** ** Packets built by the tests parse back and authenticate *)

Lemma ComputeAuthTag_length key data tag :
  ComputeAuthTag key data = Ok tag -> length tag = 4%nat.
Proof.
  intros H. destruct (Z.eqb_spec (len key) 16) as [H16|H16];
    [|destruct (Z.eqb_spec (len key) 32) as [H32|H32]].
  1,2: rewrite ComputeAuthTag_ok in H by (unfold valid_key; auto);
       apply Ok_inj in H; subst tag; rewrite length_firstn, Sum_length;
       reflexivity.
  unfold ComputeAuthTag in H. rewrite invalid_key_check in H;
    [discriminate | unfold valid_key; tauto].
Qed.

Lemma build_packet_inv key T S plaintext payload :
  valid_key key -> 0 <= S <= 1023 ->
  build_packet key T S plaintext = Ok payload ->
  exists encKey nonce tag ciphertext,
    FullEncryptionKeyDerivation key T S = Ok encKey
    /\ valid_key encKey
    /\ FullNonceDerivation key T S = Ok nonce
    /\ len nonce = 12
    /\ AESCTREncrypt encKey nonce plaintext = Ok ciphertext
    /\ ComputeAuthTag encKey (packet_header S) = Ok tag
    /\ payload = packet_header S ++ tag ++ ciphertext
    /\ ParsePacket payload = Ok (mkParsedPacket S tag ciphertext payload).
Proof.
  intros Hk HS H. unfold build_packet in H.
  destruct (FullEncryptionKeyDerivation_ok key T S Hk) as (ek & Hek & Hvk).
  destruct (FullNonceDerivation_ok key T S Hk) as (nonce & Hn & Hnl).
  rewrite Hek, Hn in H.
  destruct (AESCTREncrypt ek nonce plaintext) as [ct|] eqn:Hct; [|discriminate].
  destruct (ComputeAuthTag ek (packet_header S)) as [tag|] eqn:Htag;
    [|discriminate].
  injection H as <-. exists ek, nonce, tag, ct.
  repeat (split; [first [reflexivity | assumption]|]).
  apply ParsePacket_assembled; [exact HS|]. eapply ComputeAuthTag_length, Htag.
Qed.

Lemma build_packet_authenticates key T S plaintext payload parsed :
  valid_key key -> 0 <= S <= 1023 ->
  build_packet key T S plaintext = Ok payload ->
  ParsePacket payload = Ok parsed ->
  authenticates key parsed T = true.
Proof.
  intros Hk HS Hb Hp.
  destruct (build_packet_inv _ _ _ _ _ Hk HS Hb)
    as (ek & nonce & tag & ct & Hek & Hvk & _ & _ & _ & Htag & Hpay & Hparse).
  rewrite Hparse in Hp. injection Hp as <-.
  unfold authenticates. cbn [SequenceNumber RawPacket AuthTag]. rewrite Hek.
  assert (Hhdr : slice_to payload AuthTagOffset = packet_header S).
  { subst payload. reflexivity. }
  rewrite Hhdr.
  destruct (VerifyAuthTag_ok ek (packet_header S) tag Hvk) as (b & Hb' & Hiff).
  { unfold len. rewrite (ComputeAuthTag_length _ _ _ Htag). reflexivity. }
  rewrite Hb'. apply Hiff in Htag. subst b. reflexivity.
Qed.

(** ** Decimal contexts *)

Lemma FormatUint10_decimal counter :
  0 <= counter ->
  option_map (fun d => Z.of_N (N.of_uint d))
             (NilZero.uint_of_string (FormatUint10 counter))
  = Some counter.
Proof.
  intros Hc. unfold FormatUint10. rewrite NilZero.usu.
  - cbn [option_map]. rewrite DecimalN.Unsigned.of_to, Z2N.id by exact Hc.
    reflexivity.
  - destruct (Z.to_N counter); [discriminate|].
    apply DecimalPos.Unsigned.to_uint_nonnil.
Qed.

(** ** Prefixes of concatenated MAC blocks *)



(** * The claims *)



(** C4. For every key of 16 or 32 bytes and every data, [ComputeAuthTag] is
    the first four bytes of the sixteen-byte [ComputeFullCMAC], and
    [VerifyAuthTag] on a four-byte tag returns true exactly when the tag
    equals [ComputeAuthTag key data]. *)
Theorem auth_tag_truncates_full_cmac :
  forall key data,
    valid_key key ->
    exists full,
      ComputeFullCMAC key data = Ok full
      /\ len full = 16
      /\ ComputeAuthTag key data = Ok (firstn 4 full)
      /\ forall tag, len tag = 4 ->
           exists b, VerifyAuthTag key data tag = Ok b
                     /\ (b = true <-> tag = firstn 4 full).
Proof.
  intros key data Hk. exists (cmac.Sum (cmac.Write (mac_of key) data)).
  split; [apply ComputeFullCMAC_ok, Hk|].
  split; [unfold len; rewrite Sum_length; reflexivity|].
  split; [apply ComputeAuthTag_ok, Hk|].
  intros tag Ht. destruct (VerifyAuthTag_ok key data tag Hk Ht) as (b & Hb & Hiff).
  exists b. split; [exact Hb|]. rewrite Hiff, ComputeAuthTag_ok by exact Hk.
  split; [intros H; injection H as H; auto | intros ->; reflexivity].
Qed.

Lemma auth_tag_truncates_full_cmac_witness :
  exists full,
    ComputeFullCMAC rfc4493_key [] = Ok full
    /\ len full = 16
    /\ ComputeAuthTag rfc4493_key [] = Ok (firstn 4 full)
    /\ forall tag, len tag = 4 ->
         exists b, VerifyAuthTag rfc4493_key [] tag = Ok b
                   /\ (b = true <-> tag = firstn 4 full).
Proof.
  apply (auth_tag_truncates_full_cmac rfc4493_key []). left. reflexivity.
Defined.

(** C5. For every input of at least ten bytes [ParsePacket] succeeds and
    sets [SequenceNumber] to the big-endian 16-bit value of bytes [0,2)
    masked with [0x3FF]: set high bits are discarded and never cause
    rejection; header bytes [0xFF 0xFF] give 1023 and [0x00 0x42] give 66. *)
Theorem ParsePacket_sequence_number_masked :
  forall b0 b1 rest,
    is_byte b0 -> is_byte b1 -> 8 <= len rest ->
    exists parsed,
      ParsePacket (b0 :: b1 :: rest) = Ok parsed
      /\ SequenceNumber parsed = Z.land (b0 * 256 + b1) 1023
      /\ SequenceNumber parsed = (b0 * 256 + b1) mod 1024
      /\ 0 <= SequenceNumber parsed <= 1023
      /\ (b0 = 255 -> b1 = 255 -> SequenceNumber parsed = 1023)
      /\ (b0 = 0 -> b1 = 66 -> SequenceNumber parsed = 66).
Proof.
  intros b0 b1 rest H0 H1 Hrest.
  assert (Hlen : 10 <= len (b0 :: b1 :: rest)).
  { unfold len in *. cbn [length]. lia. }
  rewrite ParsePacket_ok by exact Hlen.
  eexists. split; [reflexivity|]. cbn [SequenceNumber firstn].
  unfold BigEndian_Uint16. cbn [nth].
  rewrite lor_shiftl_8 by exact H1. rewrite land_1023.
  split; [reflexivity|]. split; [reflexivity|].
  split; [pose proof (Z.mod_pos_bound (b0 * 256 + b1) 1024); lia|].
  split; intros -> ->; reflexivity.
Qed.

Lemma ParsePacket_sequence_number_masked_witness :
  exists parsed,
    ParsePacket (255 :: 255 :: repeat 0 8) = Ok parsed
    /\ SequenceNumber parsed = Z.land (255 * 256 + 255) 1023
    /\ SequenceNumber parsed = (255 * 256 + 255) mod 1024
    /\ 0 <= SequenceNumber parsed <= 1023
    /\ (255 = 255 -> 255 = 255 -> SequenceNumber parsed = 1023)
    /\ (255 = 0 -> 255 = 66 -> SequenceNumber parsed = 66).
Proof.
  apply (ParsePacket_sequence_number_masked 255 255 (repeat 0 8));
    [unfold is_byte; lia | unfold is_byte; lia
    | apply Z.leb_le; vm_compute; reflexivity].
Defined.

(** C6. [ParsePacket] fails exactly when the input is shorter than ten
    bytes, and then with [ErrPacketTooShort]; an input of ten bytes or more
    parses with the four-byte [AuthTag] copied from bytes [6,10) and
    [EncryptedPayload] equal to bytes [10, len), empty for an input of
    exactly ten bytes. *)
Theorem ParsePacket_minimum_size :
  forall payload,
    ((exists e, ParsePacket payload = Err e) <-> len payload < 10)
    /\ (forall e, ParsePacket payload = Err e ->
                  errors_Is e ErrPacketTooShort = true)
    /\ (10 <= len payload ->
        exists parsed,
          ParsePacket payload = Ok parsed
          /\ AuthTag parsed = slice payload 6 10
          /\ len (AuthTag parsed) = 4
          /\ EncryptedPayload parsed = slice_from payload 10
          /\ len (EncryptedPayload parsed) = len payload - 10
          /\ RawPacket parsed = payload
          /\ (len payload = 10 -> EncryptedPayload parsed = [])).
Proof.
  intros payload.
  assert (Hshort : len payload < 10 ->
                   ParsePacket payload
                   = Err (Wrapf "%w: got %d bytes, need at least %d"
                                [len payload; MinPacketSize] ErrPacketTooShort)).
  { intros Hlt. unfold ParsePacket, MinPacketSize.
    destruct (Z.ltb_spec (len payload) 10); [reflexivity | lia]. }
  split; [split|split].
  - intros [e He]. destruct (Z.lt_ge_cases (len payload) 10) as [|Hge]; [assumption|].
    rewrite ParsePacket_ok in He by exact Hge. discriminate.
  - intros Hlt. eexists. apply Hshort, Hlt.
  - intros e He. destruct (Z.lt_ge_cases (len payload) 10) as [Hlt|Hge].
    + rewrite (Hshort Hlt) in He. injection He as <-. reflexivity.
    + rewrite ParsePacket_ok in He by exact Hge. discriminate.
  - intros Hge. rewrite ParsePacket_ok by exact Hge. eexists.
    split; [reflexivity|]. cbn [AuthTag EncryptedPayload RawPacket].
    unfold len in *.
    split; [reflexivity|].
    split; [rewrite length_firstn, length_skipn; lia|].
    split; [reflexivity|].
    split; [rewrite length_skipn; lia|].
    split; [reflexivity|].
    intros H10. apply skipn_all2. lia.
Qed.

Lemma ParsePacket_minimum_size_witness :
  (exists parsed,
      ParsePacket (make 10) = Ok parsed
      /\ AuthTag parsed = slice (make 10) 6 10
      /\ len (AuthTag parsed) = 4
      /\ EncryptedPayload parsed = slice_from (make 10) 10
      /\ len (EncryptedPayload parsed) = len (make 10) - 10
      /\ RawPacket parsed = make 10
      /\ (len (make 10) = 10 -> EncryptedPayload parsed = []))
  /\ (exists e, ParsePacket (make 9) = Err e).
Proof.
  split.
  - apply (proj2 (proj2 (ParsePacket_minimum_size (make 10)))).
    apply Z.leb_le. vm_compute. reflexivity.
  - apply (proj2 (proj1 (ParsePacket_minimum_size (make 9)))).
    apply Z.ltb_lt. vm_compute. reflexivity.
Defined.

(** C7. For every key of 16 or 32 bytes, payload of at least ten bytes and
    the same options (and the same fuel), [FindTimeCounter] returns a
    counter [tc] exactly when [Decrypt] succeeds with a result whose
    [TimeCounter] is [tc], fails with [ErrDecryptionFailed] exactly when
    [Decrypt] does, and is still searching exactly when [Decrypt] is. *)
Theorem FindTimeCounter_agrees_with_Decrypt :
  forall fuel now key packet opts,
    valid_key key -> 10 <= len (Payload packet) ->
    FindTimeCounter fuel now key packet opts
    = option_map (result_map TimeCounter) (Decrypt fuel now key packet opts)
    /\ (forall tc,
          FindTimeCounter fuel now key packet opts = Some (Ok tc)
          <-> exists r, Decrypt fuel now key packet opts = Some (Ok r)
                        /\ TimeCounter r = tc)
    /\ (FindTimeCounter fuel now key packet opts
        = Some (Err ErrDecryptionFailed)
        <-> Decrypt fuel now key packet opts = Some (Err ErrDecryptionFailed))
    /\ (FindTimeCounter fuel now key packet opts = None
        <-> Decrypt fuel now key packet opts = None).
Proof.
  intros fuel now key packet opts Hk Hlen.
  assert (Heq : FindTimeCounter fuel now key packet opts
                = option_map (result_map TimeCounter)
                             (Decrypt fuel now key packet opts)).
  { pose proof (ParsePacket_ok _ Hlen) as Hp.
    rewrite (FindTimeCounter_unfold _ _ _ _ _ _ Hk Hp),
            (Decrypt_unfold _ _ _ _ _ _ Hk Hp).
    cbv zeta. apply loops_agree; [exact Hk|].
    eapply ParsePacket_tag_length, Hp. }
  split; [exact Heq|]. rewrite Heq.
  destruct (Decrypt fuel now key packet opts) as [[r|e]|];
    cbn [option_map result_map];
    (split; [intros tc|split]); split; intros H;
    try discriminate; try reflexivity;
    try (destruct H as (r' & H & Hr); try discriminate);
    try (injection H as H); subst; eauto.
Qed.

Lemma FindTimeCounter_agrees_with_Decrypt_witness :
  FindTimeCounter 8 zero_Time key32
    (mkEncryptedPacket packet_20000 0 (CounterToTime 20000))
    [WithSearchWindow 1]
  = Some (Ok 20000).
Proof.
  rewrite (proj1 (FindTimeCounter_agrees_with_Decrypt 8 zero_Time key32
                    (mkEncryptedPacket packet_20000 0 (CounterToTime 20000))
                    [WithSearchWindow 1]
                    (or_intror eq_refl)
                    ltac:(apply Z.leb_le; vm_compute; reflexivity))).
  vm_compute. reflexivity.
Defined.

(** ** The round trip *)

Example build_packet_20000 :
  build_packet key32 20000 42 hello = Ok packet_20000.
Proof. vm_compute. reflexivity. Qed.

(** C1, as amended.  A packet assembled for [(K, T, S)] from the header, the
    tag over the header under the derived encryption key and the AES-CTR
    encryption of [P] decrypts to exactly [(P, T, S)] when the search
    window [B - W .. B + W] does not wrap around the 32-bit counter range,
    contains [T], and no earlier candidate of the window verifies the
    four-byte tag. *)
Theorem Decrypt_roundtrip :
  forall fuel now key plaintext T S packet opts B W,
    valid_key key -> 0 <= S <= 1023 ->
    build_packet key T S plaintext = Ok (Payload packet) ->
    B = TimeToCounter (ExpectedTime (resolved_options now packet opts)) ->
    W = SearchWindowDays (resolved_options now packet opts) ->
    0 <= W <= B -> B + W < 4294967296 -> B - W <= T <= B + W ->
    (forall c, B - W <= c < T ->
               candidate_authenticates key (Payload packet) c = false) ->
    (Z.to_nat (T - (B - W)) < fuel)%nat ->
    Decrypt fuel now key packet opts
    = Some (Ok (mkDecryptResult plaintext T S)).
Proof.
  intros fuel now key plaintext T S packet opts B W
         Hk HS Hbuild HB HW HWB Hhi HT Hnone Hfuel.
  destruct (build_packet_inv _ _ _ _ _ Hk HS Hbuild)
    as (ek & nonce & tag & ct & Hek & Hvk & Hn & Hnl & Hct & Htag & Hpay & Hp).
  set (parsed := mkParsedPacket S tag ct (Payload packet)) in *.
  assert (Htl : len (AuthTag parsed) = 4) by (eapply ParsePacket_tag_length, Hp).
  assert (Ha : authenticates key parsed T = true)
    by (eapply build_packet_authenticates; eassumption).
  rewrite (Decrypt_unfold _ _ _ _ _ _ Hk Hp). cbv zeta. rewrite <- HB, <- HW.
  rewrite (uint32_small W) by lia.
  rewrite (uint32_small (B - W)), (uint32_small (B + W)) by lia.
  rewrite (Decrypt_loop_first key parsed Hk Htl (B + W) T ltac:(lia) Hhi Ha
             (Z.to_nat (T - (B - W))) (B - W) fuel ltac:(lia) eq_refl Hfuel).
  - destruct (tryDecrypt_success _ _ Hk _ Ha)
      as (ek' & nonce' & Hek' & _ & Hn' & _ & ->).
    cbn [SequenceNumber parsed] in Hek', Hn'.
    rewrite Hek in Hek'. rewrite Hn in Hn'.
    apply Ok_inj in Hek'. apply Ok_inj in Hn'. subst ek' nonce'.
    cbn [EncryptedPayload parsed].
    rewrite (AESCTR_roundtrip _ _ _ _ Hvk Hnl Hct). reflexivity.
  - intros c Hc. specialize (Hnone c Hc).
    unfold candidate_authenticates in Hnone. rewrite Hp in Hnone. exact Hnone.
Qed.

Lemma Decrypt_roundtrip_witness :
  Decrypt 8 zero_Time key32
    (mkEncryptedPacket packet_20000 0 (CounterToTime 20000))
    [WithSearchWindow 1]
  = Some (Ok (mkDecryptResult hello 20000 42)).
Proof.
  apply (Decrypt_roundtrip 8 zero_Time key32 hello 20000 42
           (mkEncryptedPacket packet_20000 0 (CounterToTime 20000))
           [WithSearchWindow 1] 20000 1).
  - right. reflexivity.
  - lia.
  - vm_compute. reflexivity.
  - vm_compute. reflexivity.
  - reflexivity.
  - lia.
  - lia.
  - lia.
  - intros c Hc. assert (c = 19999) by lia. subst c. vm_compute. reflexivity.
  - vm_compute. lia.
Defined.

(** C1 as stated fails: under [collision_key] the packet assembled for
    [T = 20154], [S = 487] is searched from base counter 20153 with the
    default window of two days, so [T] lies in the window, but the
    candidate 20151 is reached first and verifies the four-byte tag too:
    [Decrypt] returns counter 20151 and a payload that is not the
    plaintext. *)
Lemma Decrypt_roundtrip_tag_collision :
  let packet := mkEncryptedPacket packet_20154 0 (CounterToTime 20153) in
  valid_key collision_key
  /\ build_packet collision_key 20154 487 hello = Ok packet_20154
  /\ TimeToCounter (ExpectedTime (resolved_options zero_Time packet [])) = 20153
  /\ SearchWindowDays (resolved_options zero_Time packet []) = 2
  /\ 20153 - 2 <= 20154 <= 20153 + 2
  /\ Decrypt 8 zero_Time collision_key packet []
     = Some (Ok (mkDecryptResult
                   [10; 11; 15; 143; 34; 71; 194; 146; 84; 129; 37; 51; 183; 121]
                   20151 487))
  /\ forall fuel,
       Decrypt fuel zero_Time collision_key packet []
       <> Some (Ok (mkDecryptResult hello 20154 487)).
Proof.
  set (r := mkDecryptResult
              [10; 11; 15; 143; 34; 71; 194; 146; 84; 129; 37; 51; 183; 121]
              20151 487).
  intros packet.
  assert (H8 : Decrypt 8 zero_Time collision_key packet [] = Some (Ok r))
    by (vm_compute; reflexivity).
  split; [left; reflexivity|].
  split; [vm_compute; reflexivity|].
  split; [reflexivity|]. split; [reflexivity|]. split; [lia|].
  split; [exact H8|].
  intros fuel Hf. pose proof (Decrypt_fuel _ _ _ _ _ _ _ _ H8 Hf) as E.
  discriminate E.
Qed.

(** ** The search window *)

(** C2, as amended.  For a valid key and a packet that parses, when the
    window [B - W .. B + W] does not wrap around the 32-bit counter range:
    if the packet's tag verifies for a counter [T] of the window, [Decrypt]
    succeeds and returns the first (lowest) candidate of the window whose
    tag verifies, the candidates being tried in ascending order from
    [B - W]; and if no candidate of the window verifies the tag, [Decrypt]
    fails with [ErrDecryptionFailed]. *)
Theorem Decrypt_window :
  forall fuel now key packet parsed opts B W,
    valid_key key ->
    ParsePacket (Payload packet) = Ok parsed ->
    B = TimeToCounter (ExpectedTime (resolved_options now packet opts)) ->
    W = SearchWindowDays (resolved_options now packet opts) ->
    0 <= W <= B -> B + W < 4294967296 ->
    (Z.to_nat (2 * W + 1) < fuel)%nat ->
    (forall T,
        B - W <= T <= B + W -> authenticates key parsed T = true ->
        exists r,
          Decrypt fuel now key packet opts = Some (Ok r)
          /\ B - W <= TimeCounter r <= T
          /\ authenticates key parsed (TimeCounter r) = true
          /\ forall c, B - W <= c < TimeCounter r ->
                       authenticates key parsed c = false)
    /\ (B + W < 4294967295 ->
        (forall c, B - W <= c <= B + W -> authenticates key parsed c = false) ->
        Decrypt fuel now key packet opts = Some (Err ErrDecryptionFailed)).
Proof.
  intros fuel now key packet parsed opts B W Hk Hp HB HW HWB Hhi Hfuel.
  assert (Htl : len (AuthTag parsed) = 4) by (eapply ParsePacket_tag_length, Hp).
  rewrite (Decrypt_unfold _ _ _ _ _ _ Hk Hp). cbv zeta. rewrite <- HB, <- HW.
  rewrite (uint32_small W) by lia.
  rewrite (uint32_small (B - W)), (uint32_small (B + W)) by lia.
  split.
  - intros T HT Ha.
    destruct (first_authenticating key parsed T Ha (Z.to_nat (T - (B - W)))
                (B - W) eq_refl ltac:(lia)) as (c & Hc & Hac & Hbefore).
    rewrite (Decrypt_loop_first key parsed Hk Htl (B + W) c ltac:(lia) Hhi Hac
               (Z.to_nat (c - (B - W))) (B - W) fuel ltac:(lia) eq_refl
               ltac:(lia) Hbefore).
    destruct (tryDecrypt_outcome key parsed Hk Htl c)
      as [[_ [pt ->]] | [Hf _]]; [|congruence].
    eexists. split; [reflexivity|]. cbn [TimeCounter]. auto.
  - intros Hstrict Hnone.
    apply (Decrypt_loop_exhaust key parsed Hk Htl (B + W) Hstrict
             (Z.to_nat (B + W + 1 - (B - W)))); try lia. exact Hnone.
Qed.

Lemma Decrypt_window_witness :
  exists r,
    Decrypt 8 zero_Time key32
      (mkEncryptedPacket packet_20000 0 (CounterToTime 19998))
      [WithSearchWindow 2]
    = Some (Ok r)
    /\ 19998 - 2 <= TimeCounter r <= 20000
    /\ authenticates key32
         (mkParsedPacket 42 [126; 191; 55; 91]
            [215; 71; 139; 255; 80; 33; 60; 72; 50; 210; 176; 176; 6; 69]
            packet_20000) (TimeCounter r) = true
    /\ forall c, 19998 - 2 <= c < TimeCounter r ->
                 authenticates key32
                   (mkParsedPacket 42 [126; 191; 55; 91]
                      [215; 71; 139; 255; 80; 33; 60; 72; 50; 210; 176; 176; 6;
                       69] packet_20000) c = false.
Proof.
  apply (proj1 (Decrypt_window 8 zero_Time key32
                  (mkEncryptedPacket packet_20000 0 (CounterToTime 19998))
                  (mkParsedPacket 42 [126; 191; 55; 91]
                     [215; 71; 139; 255; 80; 33; 60; 72; 50; 210; 176; 176; 6;
                      69] packet_20000)
                  [WithSearchWindow 2] 19998 2
                  (or_intror eq_refl)
                  ltac:(vm_compute; reflexivity)
                  eq_refl eq_refl
                  ltac:(lia) ltac:(lia) ltac:(vm_compute; lia))).
  - lia.
  - vm_compute. reflexivity.
Defined.

(** C2 as stated fails: the packet assembled for [T = 82169] under [key16]
    is searched from base counter 74882 with a window of two days, so [T]
    lies far outside the window, yet the candidate 74882 verifies the
    four-byte tag and [Decrypt] succeeds instead of failing with
    [ErrDecryptionFailed]. *)
Lemma Decrypt_window_outside_succeeds :
  let packet := mkEncryptedPacket packet_82169 0 (CounterToTime 74882) in
  valid_key key16
  /\ build_packet key16 82169 42 hello = Ok packet_82169
  /\ TimeToCounter (ExpectedTime (resolved_options zero_Time packet [])) = 74882
  /\ SearchWindowDays (resolved_options zero_Time packet []) = 2
  /\ 74882 + 2 + 1 <= 82169
  /\ Decrypt 8 zero_Time key16 packet []
     = Some (Ok (mkDecryptResult
                   [131; 13; 241; 244; 26; 17; 177; 25; 154; 154; 146; 128; 195;
                    74] 74882 42))
  /\ forall fuel,
       Decrypt fuel zero_Time key16 packet []
       <> Some (Err ErrDecryptionFailed).
Proof.
  set (r := mkDecryptResult
              [131; 13; 241; 244; 26; 17; 177; 25; 154; 154; 146; 128; 195; 74]
              74882 42).
  intros packet.
  assert (H8 : Decrypt 8 zero_Time key16 packet [] = Some (Ok r))
    by (vm_compute; reflexivity).
  split; [left; reflexivity|].
  split; [vm_compute; reflexivity|].
  split; [reflexivity|]. split; [reflexivity|]. split; [lia|].
  split; [exact H8|].
  intros fuel Hf. pose proof (Decrypt_fuel _ _ _ _ _ _ _ _ H8 Hf) as E.
  discriminate E.
Qed.

(** ** Errors inside the search *)



(** ** Wrap-around of the window bounds *)

Example build_packet_1 : build_packet key16 1 0 hello = Ok packet_1.
Proof. vm_compute. reflexivity. Qed.

Example build_packet_2147483648 :
  build_packet key16 2147483648 0 hello = Ok packet_2147483648.
Proof. vm_compute. reflexivity. Qed.

(** C10, as amended.  If the base counter [B] is smaller than the search
    window [W] and [W < 2^31], the subtraction [B - uint32(W)] wraps to
    [B - W + 2^32], the lower bound of the loop exceeds its upper bound,
    the loop body never runs (one unit of fuel, the first test of the loop
    condition, is enough), and [Decrypt] and [FindTimeCounter] return
    [ErrDecryptionFailed] whatever the packet is. *)
Theorem search_window_underflow :
  forall fuel now key packet opts B W,
    valid_key key -> 10 <= len (Payload packet) ->
    B = TimeToCounter (ExpectedTime (resolved_options now packet opts)) ->
    W = SearchWindowDays (resolved_options now packet opts) ->
    B < W -> W < 2147483648 ->
    uint32 (B - uint32 W) = B - W + 4294967296
    /\ uint32 (B + uint32 W) < uint32 (B - uint32 W)
    /\ Decrypt (S fuel) now key packet opts = Some (Err ErrDecryptionFailed)
    /\ FindTimeCounter (S fuel) now key packet opts
       = Some (Err ErrDecryptionFailed).
Proof.
  intros fuel now key packet opts B W Hk Hlen HB HW HBW HW31.
  assert (HBr : 0 <= B < 4294967296) by (subst B; apply uint32_range).
  assert (Hlo : uint32 (B - uint32 W) = B - W + 4294967296).
  { rewrite (uint32_small W) by lia. unfold uint32.
    rewrite <- (Z_mod_plus_full (B - W) 1 4294967296).
    apply Z.mod_small. lia. }
  assert (Hhi : uint32 (B + uint32 W) = B + W).
  { rewrite (uint32_small W) by lia. apply uint32_small. lia. }
  split; [exact Hlo|]. split; [lia|].
  pose proof (ParsePacket_ok _ Hlen) as Hp.
  rewrite (Decrypt_unfold _ _ _ _ _ _ Hk Hp),
          (FindTimeCounter_unfold _ _ _ _ _ _ Hk Hp).
  cbv zeta. rewrite <- HB, <- HW, Hlo, Hhi.
  cbn [Decrypt_loop FindTimeCounter_loop].
  destruct (Z.leb_spec (B - W + 4294967296) (B + W)); [lia|]. auto.
Qed.

Lemma search_window_underflow_witness :
  uint32 (1 - uint32 2) = 1 - 2 + 4294967296
  /\ uint32 (1 + uint32 2) < uint32 (1 - uint32 2)
  /\ Decrypt 1 zero_Time key16
       (mkEncryptedPacket packet_1 0 (CounterToTime 1)) []
     = Some (Err ErrDecryptionFailed)
  /\ FindTimeCounter 1 zero_Time key16
       (mkEncryptedPacket packet_1 0 (CounterToTime 1)) []
     = Some (Err ErrDecryptionFailed).
Proof.
  apply (search_window_underflow 0 zero_Time key16
           (mkEncryptedPacket packet_1 0 (CounterToTime 1)) [] 1 2).
  - left. reflexivity.
  - apply Z.leb_le. vm_compute. reflexivity.
  - reflexivity.
  - reflexivity.
  - lia.
  - lia.
Defined.

(** C10 as stated fails for a window of [2^31] days or more: with base
    counter 0 and [W = 2^31] the subtraction wraps, but both bounds are
    [2^31], the loop runs, and the candidate [2^31] is tried and found. *)
Lemma search_window_underflow_large_window :
  let packet := mkEncryptedPacket packet_2147483648 0 (CounterToTime 0) in
  let opts := [WithSearchWindow 2147483648] in
  TimeToCounter (ExpectedTime (resolved_options zero_Time packet opts)) = 0
  /\ SearchWindowDays (resolved_options zero_Time packet opts) = 2147483648
  /\ 0 < 2147483648
  /\ uint32 (0 - uint32 2147483648) = uint32 (0 + uint32 2147483648)
  /\ Decrypt 8 zero_Time key16 packet opts
     = Some (Ok (mkDecryptResult hello 2147483648 0))
  /\ FindTimeCounter 8 zero_Time key16 packet opts = Some (Ok 2147483648)
  /\ forall fuel,
       Decrypt fuel zero_Time key16 packet opts
       <> Some (Err ErrDecryptionFailed).
Proof.
  intros packet opts.
  assert (H8 : Decrypt 8 zero_Time key16 packet opts
               = Some (Ok (mkDecryptResult hello 2147483648 0)))
    by (vm_compute; reflexivity).
  split; [reflexivity|]. split; [reflexivity|]. split; [lia|].
  split; [reflexivity|]. split; [exact H8|].
  split; [vm_compute; reflexivity|].
  intros fuel Hf. pose proof (Decrypt_fuel _ _ _ _ _ _ _ _ H8 Hf) as E.
  discriminate E.
Qed.

(** * Further properties of the code *)

(** ** aesctr.go *)

Lemma xor_bytes_swap c : forall d ks,
  ctr.xor_bytes (ctr.xor_bytes c d) ks = ctr.xor_bytes (ctr.xor_bytes c ks) d.
Proof.
  induction c as [|x c IH]; intros [|y d] [|k ks]; cbn [ctr.xor_bytes];
    try reflexivity.
  rewrite IH. f_equal.
  rewrite !Z.lxor_assoc, (Z.lxor_comm y k). reflexivity.
Qed.

Lemma xor_bytes_length_min c : forall d,
  length (ctr.xor_bytes c d) = Nat.min (length c) (length d).
Proof.
  induction c as [|x c IH]; intros [|y d]; cbn [ctr.xor_bytes length Nat.min];
    try reflexivity.
  rewrite IH. reflexivity.
Qed.

(** X1. For a key of 16 or 32 bytes and a nonce of 12 bytes, encryption
    succeeds, keeps the length, and is undone both by [AESCTRDecrypt] and by
    encrypting a second time. *)
Theorem AESCTR_encrypt_then_decrypt :
  forall key nonce plaintext,
    valid_key key -> len nonce = 12 ->
    exists ciphertext,
      AESCTREncrypt key nonce plaintext = Ok ciphertext
      /\ len ciphertext = len plaintext
      /\ AESCTRDecrypt key nonce ciphertext = Ok plaintext
      /\ AESCTREncrypt key nonce ciphertext = Ok plaintext.
Proof.
  intros key nonce plaintext Hk Hn. unfold AESCTREncrypt.
  rewrite AESCTRDecrypt_ok by assumption. eexists. split; [reflexivity|].
  split; [unfold len; rewrite XORKeyStream_length; reflexivity|].
  rewrite AESCTRDecrypt_ok, XORKeyStream_involutive by assumption. auto.
Qed.

Lemma AESCTR_encrypt_then_decrypt_witness :
  exists ciphertext,
    AESCTREncrypt rfc4493_key (make 12) hello = Ok ciphertext
    /\ len ciphertext = len hello
    /\ AESCTRDecrypt rfc4493_key (make 12) ciphertext = Ok hello
    /\ AESCTREncrypt rfc4493_key (make 12) ciphertext = Ok hello.
Proof.
  apply (AESCTR_encrypt_then_decrypt rfc4493_key (make 12) hello);
    [left; reflexivity | reflexivity].
Defined.

(** X2. [AESCTRDecrypt] checks the key first and the nonce second: a key
    that is not 16 or 32 bytes long (24 included) gives the key-size error
    whatever the nonce is, a valid key with a nonce that is not 12 bytes
    long gives the nonce-size error, and otherwise the call succeeds with
    an output as long as the input. *)
Theorem AESCTRDecrypt_validation :
  forall key nonce data,
    (~ valid_key key ->
     AESCTRDecrypt key nonce data
     = Err (Errorf "key must be %d or %d bytes, got %d" [16; 32; len key]))
    /\ (valid_key key -> len nonce <> 12 ->
        AESCTRDecrypt key nonce data
        = Err (Errorf "nonce must be %d bytes, got %d" [12; len nonce]))
    /\ (valid_key key -> len nonce = 12 ->
        exists out, AESCTRDecrypt key nonce data = Ok out
                    /\ len out = len data).
Proof.
  intros key nonce data. split; [|split].
  - intros Hk. unfold AESCTRDecrypt, AES128KeySize, AES256KeySize.
    rewrite (invalid_key_check _ Hk). reflexivity.
  - intros Hk Hn. unfold AESCTRDecrypt, AES128KeySize, AES256KeySize, NonceSize.
    rewrite (valid_key_check _ Hk).
    destruct (Z.eqb_spec (len nonce) 12); [contradiction | reflexivity].
  - intros Hk Hn. rewrite AESCTRDecrypt_ok by assumption. eexists.
    split; [reflexivity|]. unfold len. rewrite XORKeyStream_length. reflexivity.
Qed.

Lemma AESCTRDecrypt_validation_witness :
  AESCTRDecrypt (make 24) (make 11) hello
  = Err (Errorf "key must be %d or %d bytes, got %d" [16; 32; len (make 24)])
  /\ AESCTRDecrypt key16 (make 16) hello
     = Err (Errorf "nonce must be %d bytes, got %d" [12; len (make 16)])
  /\ exists out, AESCTRDecrypt key16 (make 12) hello = Ok out
                 /\ len out = len hello.
Proof.
  split; [|split].
  - apply (proj1 (AESCTRDecrypt_validation (make 24) (make 11) hello)).
    unfold valid_key. vm_compute. intros [H|H]; discriminate H.
  - apply (proj1 (proj2 (AESCTRDecrypt_validation key16 (make 16) hello)));
      [left; reflexivity | vm_compute; discriminate].
  - apply (proj2 (proj2 (AESCTRDecrypt_validation key16 (make 12) hello)));
      [left; reflexivity | reflexivity].
Defined.

(** X3. Counter mode is malleable: exclusive-or of a difference [delta]
    (at least as long as the ciphertext) into the ciphertext gives the
    plaintext with the same difference. *)
Theorem AESCTR_malleable :
  forall key nonce ciphertext delta,
    valid_key key -> len nonce = 12 ->
    (length ciphertext <= length delta)%nat ->
    AESCTRDecrypt key nonce (ctr.xor_bytes ciphertext delta)
    = result_map (fun p => ctr.xor_bytes p delta)
                 (AESCTRDecrypt key nonce ciphertext).
Proof.
  intros key nonce c d Hk Hn Hd. rewrite !AESCTRDecrypt_ok by assumption.
  cbn [result_map]. f_equal. unfold ctr.XORKeyStream.
  rewrite xor_bytes_length_min, Nat.min_l by exact Hd.
  apply xor_bytes_swap.
Qed.

Lemma AESCTR_malleable_witness :
  AESCTRDecrypt key16 (make 12) (ctr.xor_bytes hello [1; 0; 0; 0; 0; 0; 0; 0; 0; 0; 0; 0; 0; 255])
  = result_map (fun p => ctr.xor_bytes p [1; 0; 0; 0; 0; 0; 0; 0; 0; 0; 0; 0; 0; 255])
               (AESCTRDecrypt key16 (make 12) hello).
Proof.
  apply (AESCTR_malleable key16 (make 12) hello
           [1; 0; 0; 0; 0; 0; 0; 0; 0; 0; 0; 0; 0; 255]);
    [left; reflexivity | reflexivity | vm_compute; lia].
Defined.

(** ** kdf.go *)

Lemma bytes_of_string_app a b :
  bytes_of_string (a ++ b)%string = bytes_of_string a ++ bytes_of_string b.
Proof.
  unfold bytes_of_string. induction a as [|ch a IH]; [reflexivity|].
  cbn [String.append list_ascii_of_string map app]. f_equal. exact IH.
Qed.

Lemma SP800108CounterKDF_fixed key l1 c1 l2 c2 outputLen :
  (bytes_of_string l1 ++ [0]) ++ bytes_of_string c1
  = (bytes_of_string l2 ++ [0]) ++ bytes_of_string c2 ->
  SP800108CounterKDF key l1 c1 outputLen
  = SP800108CounterKDF key l2 c2 outputLen.
Proof.
  intros H. unfold SP800108CounterKDF. cbv zeta. rewrite H. reflexivity.
Qed.

Lemma int_add_l x y : int (int x + y) = int (x + y).
Proof.
  unfold int.
  rewrite (Z.mod_eq (x + 9223372036854775808) 18446744073709551616) by lia.
  set (q := (x + 9223372036854775808) / 18446744073709551616).
  replace (x + 9223372036854775808 - 18446744073709551616 * q
           - 9223372036854775808 + y + 9223372036854775808)
    with (x + y + 9223372036854775808 + (- q) * 18446744073709551616) by lia.
  rewrite Z_mod_plus_full. reflexivity.
Qed.

(** The capacity [make] is called with when [outputLen] exceeds the
    allocation limit: too large, or negative once [outputLen + 15] wraps. *)
Lemma capacity_out_of_range outputLen :
  is_int outputLen -> maxAlloc < outputLen ->
  let capacity := int (Z.quot (int (int (outputLen + 16) - 1)) 16 * 16) in
  capacity < 0 \/ maxAlloc < capacity.
Proof.
  unfold is_int, maxAlloc. intros Hi HL. cbv zeta.
  replace (int (outputLen + 16) - 1) with (int (outputLen + 16) + - 1) by lia.
  rewrite int_add_l.
  replace (outputLen + 16 + - 1) with (outputLen + 15) by lia.
  destruct (Z.lt_ge_cases (outputLen + 15) 9223372036854775808) as [Hs|Hw].
  - right. rewrite (int_small (outputLen + 15)) by (unfold is_int; lia).
    replace (outputLen + 15) with (outputLen + 16 - 1) by lia.
    destruct (numBlocks_bound outputLen ltac:(lia)) as [_ Hq].
    rewrite int_small by (unfold is_int; lia). lia.
  - left.
    assert (Hm : int (outputLen + 15) = outputLen + 15 - 18446744073709551616).
    { unfold int.
      replace (outputLen + 15 + 9223372036854775808)
        with (outputLen + 15 - 9223372036854775808
              + 1 * 18446744073709551616) by lia.
      rewrite Z_mod_plus_full, Z.mod_small by lia. lia. }
    rewrite Hm.
    set (m := outputLen + 15 - 18446744073709551616).
    pose proof (Z.quot_rem' m 16) as Hqr.
    pose proof (Z.rem_bound_pos_neg m 16 ltac:(lia) ltac:(subst m; lia)) as Hr.
    rewrite int_small by (unfold is_int; subst m; lia).
    subst m. lia.
Qed.

(** X4. The KDF has four outcomes.  A key that is not 16 or 32 bytes long
    gives the key-size error whatever the output length.  With a valid key,
    a negative [outputLen] panics; an [outputLen] above the allocation limit
    of [2^48] bytes panics in [make] (for the largest values
    [outputLen + 15] wraps around and the capacity is negative); and for
    [0 <= outputLen < 2^29] the result has exactly [outputLen] bytes (none
    for [outputLen = 0]). *)
Theorem SP800108CounterKDF_outcomes :
  forall key label context outputLen,
    is_int outputLen ->
    (~ valid_key key ->
     SP800108CounterKDF key label context outputLen
     = Err (Errorf "key must be 16 or 32 bytes, got %d" [len key]))
    /\ (valid_key key -> outputLen < 0 ->
        exists msg,
          SP800108CounterKDF key label context outputLen = Err (Panic msg))
    /\ (valid_key key -> maxAlloc < outputLen ->
        SP800108CounterKDF key label context outputLen
        = Err (Panic "makeslice: cap out of range"))
    /\ (valid_key key -> 0 <= outputLen < 536870912 ->
        exists out,
          SP800108CounterKDF key label context outputLen = Ok out
          /\ len out = outputLen).
Proof.
  intros key label context L Hi. split; [|split; [|split]].
  - intros Hk. unfold SP800108CounterKDF. rewrite (invalid_key_check _ Hk).
    reflexivity.
  - intros Hk HL. unfold SP800108CounterKDF.
    rewrite (valid_key_check _ Hk), (NewCipher_ok _ Hk), cmac_New_ok.
    cbv zeta.
    match goal with
    | |- context [if ?c then Err (Panic _) else _] => destruct c; [eauto|]
    end.
    destruct (Z.leb_spec 0 L); [lia|]. cbn [andb]. eauto.
  - intros Hk HL. unfold SP800108CounterKDF.
    rewrite (valid_key_check _ Hk), (NewCipher_ok _ Hk), cmac_New_ok.
    cbv zeta. unfold cmac.Size.
    pose proof (capacity_out_of_range L Hi HL) as Hc. cbv zeta in Hc.
    set (capacity := int (Z.quot (int (int (L + 16) - 1)) 16 * 16)) in *.
    destruct (Z.ltb_spec capacity 0); [reflexivity|].
    destruct (Z.ltb_spec maxAlloc capacity); [reflexivity | lia].
  - intros Hk HL. apply SP800108CounterKDF_length;
      [assumption | unfold maxAlloc; lia].
Qed.

Lemma SP800108CounterKDF_outcomes_witness :
  SP800108CounterKDF (make 24) "Label" "Context" 16
  = Err (Errorf "key must be 16 or 32 bytes, got %d" [len (make 24)])
  /\ (exists msg,
        SP800108CounterKDF key16 "Label" "Context" (-1) = Err (Panic msg))
  /\ SP800108CounterKDF key16 "Label" "Context" 9223372036854775807
     = Err (Panic "makeslice: cap out of range")
  /\ (exists out,
        SP800108CounterKDF key16 "Label" "Context" 0 = Ok out /\ len out = 0).
Proof.
  split; [|split; [|split]].
  - apply (proj1 (SP800108CounterKDF_outcomes (make 24) "Label" "Context" 16
                    ltac:(unfold is_int; lia))).
    unfold valid_key. vm_compute. intros [H|H]; discriminate H.
  - apply (proj1 (proj2 (SP800108CounterKDF_outcomes key16 "Label" "Context"
                           (-1) ltac:(unfold is_int; lia))));
      [left; reflexivity | lia].
  - apply (proj1 (proj2 (proj2
             (SP800108CounterKDF_outcomes key16 "Label" "Context"
                9223372036854775807 ltac:(unfold is_int; lia)))));
      [left; reflexivity | unfold maxAlloc; lia].
  - apply (proj2 (proj2 (proj2
             (SP800108CounterKDF_outcomes key16 "Label" "Context" 0
                ltac:(unfold is_int; lia)))));
      [left; reflexivity | lia].
Defined.

(** X5. The KDF sees label and context only as [label || 0x00 || context]:
    moving the boundary across a zero byte does not change the output, so a
    label that contains a zero byte is not separated from the context. *)
Theorem KDF_label_context_boundary :
  forall key a b c outputLen,
    SP800108CounterKDF key (a ++ String Ascii.zero b) c outputLen
    = SP800108CounterKDF key a (b ++ String Ascii.zero c) outputLen.
Proof.
  intros key a b c L. apply SP800108CounterKDF_fixed.
  rewrite !bytes_of_string_app.
  change (bytes_of_string (String Ascii.zero b)) with (0 :: bytes_of_string b).
  change (bytes_of_string (String Ascii.zero c)) with (0 :: bytes_of_string c).
  rewrite <- !app_assoc. reflexivity.
Qed.

Lemma string_of_uint_digits d :
  Forall (fun x => 48 <= x <= 57)
         (bytes_of_string (NilEmpty.string_of_uint d)).
Proof.
  induction d; cbn [NilEmpty.string_of_uint];
    try (apply Forall_nil);
    (apply Forall_cons; [vm_compute; split; discriminate | exact IHd]).
Qed.

(** X6. The context [DeriveKey] makes of a counter consists of ASCII digits
    only (so it never contains the separator byte), is not empty, and
    determines the counter: two different counters never give the same
    context. *)
Theorem DeriveKey_context_decimal :
  forall counter other,
    0 <= counter -> 0 <= other ->
    Forall (fun x => 48 <= x <= 57) (bytes_of_string (FormatUint10 counter))
    /\ bytes_of_string (FormatUint10 counter) <> []
    /\ (FormatUint10 counter = FormatUint10 other -> counter = other).
Proof.
  intros counter other Hc Ho. split; [|split].
  - unfold FormatUint10, NilZero.string_of_uint.
    destruct (N.to_uint (Z.to_N counter)) eqn:E;
      try (rewrite <- E; apply string_of_uint_digits).
    apply Forall_cons; [vm_compute; split; discriminate | apply Forall_nil].
  - unfold FormatUint10, NilZero.string_of_uint.
    destruct (N.to_uint (Z.to_N counter)); discriminate.
  - intros H. pose proof (FormatUint10_decimal counter Hc) as H1.
    pose proof (FormatUint10_decimal other Ho) as H2.
    rewrite H in H1. congruence.
Qed.

Lemma DeriveKey_context_decimal_witness :
  Forall (fun x => 48 <= x <= 57) (bytes_of_string (FormatUint10 20000))
  /\ bytes_of_string (FormatUint10 20000) <> []
  /\ (FormatUint10 20000 = FormatUint10 20001 -> 20000 = 20001).
Proof.
  apply (DeriveKey_context_decimal 20000 20001); lia.
Defined.

Lemma DeriveKey_len key outputLen label counter :
  ~ valid_key key ->
  DeriveKey key outputLen label counter
  = Err (Errorf "key must be 16 or 32 bytes, got %d" [len key]).
Proof.
  intros Hk. unfold DeriveKey, SP800108CounterKDF.
  rewrite (invalid_key_check _ Hk). reflexivity.
Qed.

(** X7. For a master key of 16 or 32 bytes both two-stage derivations
    succeed, every intermediate and final key is as long as the master key
    and the nonce is 12 bytes long; for any other key length both fail at
    the first stage and return its error wrapped with the stage's
    context. *)
Theorem key_schedule_lengths :
  forall key timeCounter seqCounter,
    (valid_key key ->
     (exists nonceKey, DeriveNonceKey key timeCounter = Ok nonceKey
                       /\ len nonceKey = len key)
     /\ (exists nonce, FullNonceDerivation key timeCounter seqCounter = Ok nonce
                       /\ len nonce = 12)
     /\ (exists im, DeriveEncryptionKeyIntermediate key timeCounter = Ok im
                    /\ len im = len key)
     /\ (exists encKey,
           FullEncryptionKeyDerivation key timeCounter seqCounter = Ok encKey
           /\ len encKey = len key))
    /\ (~ valid_key key ->
        FullNonceDerivation key timeCounter seqCounter
        = Err (Wrapf "failed to derive nonce key: %w" []
                 (Errorf "key must be 16 or 32 bytes, got %d" [len key]))
        /\ FullEncryptionKeyDerivation key timeCounter seqCounter
           = Err (Wrapf "failed to derive intermediate key: %w" []
                    (Errorf "key must be 16 or 32 bytes, got %d" [len key]))).
Proof.
  intros key tc sq. split.
  - intros Hk.
    split; [apply DeriveKey_ok; [exact Hk | apply valid_key_alloc, Hk]|].
    split; [apply FullNonceDerivation_ok, Hk|].
    split; [apply DeriveKey_ok; [exact Hk | apply valid_key_alloc, Hk]|].
    unfold FullEncryptionKeyDerivation, DeriveEncryptionKeyIntermediate,
      DeriveEncryptionKey.
    destruct (DeriveKey_ok key (len key) "EncryptionKey" tc Hk
                (valid_key_alloc _ Hk))
      as (im & -> & Him).
    assert (Hk' : valid_key im) by (eapply valid_key_len; eassumption).
    destruct (DeriveKey_ok im (len im) "Key" sq Hk' (valid_key_alloc _ Hk'))
      as (ek & -> & Hek).
    exists ek. split; [reflexivity | lia].
  - intros Hk. unfold FullNonceDerivation, FullEncryptionKeyDerivation,
      DeriveNonceKey, DeriveEncryptionKeyIntermediate.
    rewrite !DeriveKey_len by exact Hk. auto.
Qed.

Lemma key_schedule_lengths_witness :
  ((exists nonceKey, DeriveNonceKey key32 19000 = Ok nonceKey
                     /\ len nonceKey = len key32)
   /\ (exists nonce, FullNonceDerivation key32 19000 42 = Ok nonce
                     /\ len nonce = 12)
   /\ (exists im, DeriveEncryptionKeyIntermediate key32 19000 = Ok im
                  /\ len im = len key32)
   /\ (exists encKey, FullEncryptionKeyDerivation key32 19000 42 = Ok encKey
                      /\ len encKey = len key32))
  /\ (FullNonceDerivation (make 15) 19000 42
      = Err (Wrapf "failed to derive nonce key: %w" []
               (Errorf "key must be 16 or 32 bytes, got %d" [len (make 15)]))
      /\ FullEncryptionKeyDerivation (make 15) 19000 42
         = Err (Wrapf "failed to derive intermediate key: %w" []
                  (Errorf "key must be 16 or 32 bytes, got %d"
                          [len (make 15)]))).
Proof.
  split.
  - apply (proj1 (key_schedule_lengths key32 19000 42)). right. reflexivity.
  - apply (proj2 (key_schedule_lengths (make 15) 19000 42)).
    unfold valid_key. vm_compute. intros [H|H]; discriminate H.
Defined.

(** ** cmac.go *)

(** X8. [VerifyAuthTag] checks the tag length before the key: a tag that is
    not four bytes long gives the tag-length error whatever the key is; with
    a four-byte tag, and for [ComputeAuthTag] and [ComputeFullCMAC], a key
    that is not 16 or 32 bytes long gives the key-size error; and a tag made
    by [ComputeAuthTag] is four bytes long and verifies. *)
Theorem auth_tag_validation :
  forall key data tag,
    (len tag <> 4 ->
     VerifyAuthTag key data tag
     = Err (Errorf "expected tag must be %d bytes, got %d" [4; len tag]))
    /\ (~ valid_key key ->
        ComputeAuthTag key data
        = Err (Errorf "key must be 16 or 32 bytes, got %d" [len key])
        /\ ComputeFullCMAC key data
           = Err (Errorf "key must be 16 or 32 bytes, got %d" [len key])
        /\ (len tag = 4 ->
            VerifyAuthTag key data tag
            = Err (Errorf "key must be 16 or 32 bytes, got %d" [len key])))
    /\ (valid_key key ->
        exists computed,
          ComputeAuthTag key data = Ok computed
          /\ len computed = 4
          /\ VerifyAuthTag key data computed = Ok true).
Proof.
  intros key data tag. split; [|split].
  - intros Ht. unfold VerifyAuthTag, AuthTagSize.
    destruct (Z.eqb_spec (len tag) 4); [contradiction | reflexivity].
  - intros Hk.
    assert (Hc : ComputeAuthTag key data
                 = Err (Errorf "key must be 16 or 32 bytes, got %d" [len key])).
    { unfold ComputeAuthTag. rewrite (invalid_key_check _ Hk). reflexivity. }
    split; [exact Hc|]. split.
    + unfold ComputeFullCMAC. rewrite (invalid_key_check _ Hk). reflexivity.
    + intros Ht. unfold VerifyAuthTag, AuthTagSize. rewrite Ht, Hc. reflexivity.
  - intros Hk.
    destruct (ComputeAuthTag key data) as [computed|] eqn:Hc.
    + assert (Hl : len computed = 4).
      { unfold len. rewrite (ComputeAuthTag_length _ _ _ Hc). reflexivity. }
      exists computed. split; [reflexivity|]. split; [exact Hl|].
      destruct (VerifyAuthTag_ok key data computed Hk Hl) as (b & Hb & Hiff).
      rewrite Hb. f_equal. apply Hiff. exact Hc.
    + rewrite ComputeAuthTag_ok in Hc by exact Hk. discriminate.
Qed.

Lemma auth_tag_validation_witness :
  VerifyAuthTag (make 3) [] [1; 2; 3]
  = Err (Errorf "expected tag must be %d bytes, got %d" [4; len [1; 2; 3]])
  /\ (ComputeAuthTag (make 24) []
      = Err (Errorf "key must be 16 or 32 bytes, got %d" [len (make 24)])
      /\ ComputeFullCMAC (make 24) []
         = Err (Errorf "key must be 16 or 32 bytes, got %d" [len (make 24)])
      /\ (len [1; 2; 3; 4] = 4 ->
          VerifyAuthTag (make 24) [] [1; 2; 3; 4]
          = Err (Errorf "key must be 16 or 32 bytes, got %d"
                        [len (make 24)])))
  /\ (exists computed,
        ComputeAuthTag rfc4493_key [] = Ok computed
        /\ len computed = 4
        /\ VerifyAuthTag rfc4493_key [] computed = Ok true).
Proof.
  split; [|split].
  - apply (proj1 (auth_tag_validation (make 3) [] [1; 2; 3])).
    vm_compute. discriminate.
  - apply (proj1 (proj2 (auth_tag_validation (make 24) [] [1; 2; 3; 4]))).
    unfold valid_key. vm_compute. intros [H|H]; discriminate H.
  - apply (proj2 (proj2 (auth_tag_validation rfc4493_key [] []))).
    left. reflexivity.
Defined.

(** ** decrypt.go: time counters *)

(** X9. [CounterToTime] is a right inverse of [TimeToCounter] on the whole
    32-bit range, and the time it returns is never the zero [time.Time], so
    a packet stamped with it is searched around that day and not around the
    current time. *)
Theorem TimeToCounter_CounterToTime :
  forall counter,
    0 <= counter < 4294967296 ->
    TimeToCounter (CounterToTime counter) = counter
    /\ IsZero (CounterToTime counter) = false.
Proof.
  intros c Hc. unfold TimeToCounter, CounterToTime, IsZero, SecondsPerDay.
  cbn [Unix Nanosecond]. split.
  - rewrite Z.quot_mul by lia. apply uint32_small, Hc.
  - destruct (Z.eqb_spec (c * 86400) (-62135596800)); [lia | reflexivity].
Qed.

Lemma TimeToCounter_CounterToTime_witness :
  TimeToCounter (CounterToTime 19738) = 19738
  /\ IsZero (CounterToTime 19738) = false.
Proof. apply (TimeToCounter_CounterToTime 19738). lia. Defined.

(** X10. [TimeToCounter] buckets time by UTC day: from the epoch on (and
    below day 2^32) the counter is the number of whole days, and
    [CounterToTime] of it is the midnight that starts the day of [t].
    Because Go's division truncates towards zero, the last day before the
    epoch also maps to counter 0; one second earlier the conversion to
    [uint32] wraps to 2^32 - 1. *)
Theorem TimeToCounter_days :
  forall t,
    (0 <= Unix t < 4294967296 * 86400 ->
     TimeToCounter t = Unix t / 86400
     /\ Unix (CounterToTime (TimeToCounter t)) <= Unix t
        < Unix (CounterToTime (TimeToCounter t)) + 86400)
    /\ (-86400 < Unix t < 86400 -> TimeToCounter t = 0)
    /\ (-2 * 86400 < Unix t <= -86400 -> TimeToCounter t = 4294967295).
Proof.
  intros t. unfold TimeToCounter, CounterToTime, SecondsPerDay. cbn [Unix].
  split; [|split].
  - intros Ht. rewrite Z.quot_div_nonneg by lia.
    assert (Hq : 0 <= Unix t / 86400 < 4294967296).
    { split; [apply Z.div_pos; lia | apply Z.div_lt_upper_bound; lia]. }
    rewrite uint32_small by exact Hq. split; [reflexivity|].
    pose proof (Z.div_mod (Unix t) 86400 ltac:(lia)).
    pose proof (Z.mod_pos_bound (Unix t) 86400 ltac:(lia)). lia.
  - intros Ht.
    assert (Hq : Z.quot (Unix t) 86400 = 0) by (apply Z.quot_small_iff; lia).
    rewrite Hq. reflexivity.
  - intros Ht.
    assert (Hq : Z.quot (Unix t) 86400 = -1).
    { rewrite <- (Z.opp_involutive (Unix t)), Z.quot_opp_l by lia.
      rewrite Z.quot_div_nonneg by lia.
      assert (- Unix t / 86400 = 1); [|lia].
      symmetry. apply (Z.div_unique (- Unix t) 86400 1 (- Unix t - 86400)); lia. }
    rewrite Hq. reflexivity.
Qed.

Lemma TimeToCounter_days_witness :
  (TimeToCounter (mkTime 1705320000 0) = 1705320000 / 86400
   /\ Unix (CounterToTime (TimeToCounter (mkTime 1705320000 0))) <= 1705320000
      < Unix (CounterToTime (TimeToCounter (mkTime 1705320000 0))) + 86400)
  /\ TimeToCounter (mkTime (-1) 0) = 0
  /\ TimeToCounter (mkTime (-86400) 0) = 4294967295.
Proof.
  split; [|split].
  - apply (proj1 (TimeToCounter_days (mkTime 1705320000 0))). cbn. lia.
  - apply (proj1 (proj2 (TimeToCounter_days (mkTime (-1) 0)))). cbn. lia.
  - apply (proj2 (proj2 (TimeToCounter_days (mkTime (-86400) 0)))). cbn. lia.
Defined.

(** ** decrypt.go: the entry points *)

Lemma valid_key_dec key : {valid_key key} + {~ valid_key key}.
Proof.
  unfold valid_key.
  destruct (Z.eq_dec (len key) 16); [left; auto|].
  destruct (Z.eq_dec (len key) 32); [left; auto | right; tauto].
Qed.

Lemma Decrypt_invalid_key fuel now key packet opts :
  ~ valid_key key -> Decrypt fuel now key packet opts = Some (Err ErrInvalidKey).
Proof.
  intros Hk. unfold Decrypt, AES128KeySize, AES256KeySize.
  rewrite (invalid_key_check _ Hk). reflexivity.
Qed.

Lemma FindTimeCounter_invalid_key fuel now key packet opts :
  ~ valid_key key ->
  FindTimeCounter fuel now key packet opts = Some (Err ErrInvalidKey).
Proof.
  intros Hk. unfold FindTimeCounter, AES128KeySize, AES256KeySize.
  rewrite (invalid_key_check _ Hk). reflexivity.
Qed.

Lemma ParsePacket_short payload :
  len payload < 10 ->
  ParsePacket payload
  = Err (Wrapf "%w: got %d bytes, need at least %d" [len payload; 10]
               ErrPacketTooShort).
Proof.
  intros H. unfold ParsePacket, MinPacketSize.
  destruct (Z.ltb_spec (len payload) 10); [reflexivity | lia].
Qed.

(** X11. Input validation comes before the search and does not depend on
    the fuel, the options or the time: with a key that is not 16 or 32 bytes
    long all three entry points return [ErrInvalidKey], even for a packet
    that is too short; with a valid key and a packet shorter than ten bytes
    they return one and the same error, which wraps [ErrPacketTooShort] and
    is not [ErrDecryptionFailed]. *)
Theorem entry_validation :
  forall fuel now key packet opts timeCounter,
    (~ valid_key key ->
     Decrypt fuel now key packet opts = Some (Err ErrInvalidKey)
     /\ FindTimeCounter fuel now key packet opts = Some (Err ErrInvalidKey)
     /\ DecryptWithKnownCounter key packet timeCounter = Err ErrInvalidKey)
    /\ (valid_key key -> len (Payload packet) < 10 ->
        exists e,
          errors_Is e ErrPacketTooShort = true
          /\ errors_Is e ErrDecryptionFailed = false
          /\ Decrypt fuel now key packet opts = Some (Err e)
          /\ FindTimeCounter fuel now key packet opts = Some (Err e)
          /\ DecryptWithKnownCounter key packet timeCounter = Err e).
Proof.
  intros fuel now key packet opts tc. split.
  - intros Hk. split; [apply Decrypt_invalid_key, Hk|].
    split; [apply FindTimeCounter_invalid_key, Hk|].
    unfold DecryptWithKnownCounter, AES128KeySize, AES256KeySize.
    rewrite (invalid_key_check _ Hk). reflexivity.
  - intros Hk Hlen. eexists. split; [|split; [|split; [|split]]].
    3: { unfold Decrypt, AES128KeySize, AES256KeySize.
         rewrite (valid_key_check _ Hk). cbv zeta.
         rewrite (ParsePacket_short _ Hlen). reflexivity. }
    + reflexivity.
    + reflexivity.
    + unfold FindTimeCounter, AES128KeySize, AES256KeySize.
      rewrite (valid_key_check _ Hk). cbv zeta.
      rewrite (ParsePacket_short _ Hlen). reflexivity.
    + unfold DecryptWithKnownCounter, AES128KeySize, AES256KeySize.
      rewrite (valid_key_check _ Hk), (ParsePacket_short _ Hlen). reflexivity.
Qed.

Lemma entry_validation_witness :
  (Decrypt 0 zero_Time (make 15) (mkEncryptedPacket (make 9) 0 zero_Time) []
   = Some (Err ErrInvalidKey)
   /\ FindTimeCounter 0 zero_Time (make 15)
        (mkEncryptedPacket (make 9) 0 zero_Time) []
      = Some (Err ErrInvalidKey)
   /\ DecryptWithKnownCounter (make 15)
        (mkEncryptedPacket (make 9) 0 zero_Time) 20000
      = Err ErrInvalidKey)
  /\ (exists e,
        errors_Is e ErrPacketTooShort = true
        /\ errors_Is e ErrDecryptionFailed = false
        /\ Decrypt 0 zero_Time key16 (mkEncryptedPacket (make 9) 0 zero_Time) []
           = Some (Err e)
        /\ FindTimeCounter 0 zero_Time key16
             (mkEncryptedPacket (make 9) 0 zero_Time) []
           = Some (Err e)
        /\ DecryptWithKnownCounter key16
             (mkEncryptedPacket (make 9) 0 zero_Time) 20000
           = Err e).
Proof.
  split.
  - apply (proj1 (entry_validation 0 zero_Time (make 15)
                    (mkEncryptedPacket (make 9) 0 zero_Time) [] 20000)).
    unfold valid_key. vm_compute. intros [H|H]; discriminate H.
  - apply (proj2 (entry_validation 0 zero_Time key16
                    (mkEncryptedPacket (make 9) 0 zero_Time) [] 20000));
      [left; reflexivity | vm_compute; reflexivity].
Defined.

(** A success of the loop is the success of [tryDecrypt] at a candidate
    that passed the loop condition. *)
Lemma Decrypt_loop_success key parsed maxCounter :
  forall fuel tc r,
    0 <= tc ->
    Decrypt_loop fuel key parsed tc maxCounter = Some (Ok r) ->
    exists c, 0 <= c <= maxCounter /\ tryDecrypt key parsed c = Ok r.
Proof.
  induction fuel as [|fuel IH]; intros tc r Htc H; [discriminate|].
  cbn [Decrypt_loop] in H.
  destruct (Z.leb_spec tc maxCounter) as [Hle|Hgt]; [|discriminate].
  destruct (tryDecrypt key parsed tc) as [r'|e] eqn:Ht.
  - injection H as <-. exists tc. split; [lia | exact Ht].
  - apply (IH _ _ (proj1 (uint32_range (tc + 1))) H).
Qed.

Lemma Decrypt_success_inv fuel now key packet opts r :
  Decrypt fuel now key packet opts = Some (Ok r) ->
  valid_key key
  /\ exists parsed,
      ParsePacket (Payload packet) = Ok parsed
      /\ 0 <= TimeCounter r
           <= uint32 (TimeToCounter
                        (ExpectedTime (resolved_options now packet opts))
                      + uint32 (SearchWindowDays
                                  (resolved_options now packet opts)))
      /\ tryDecrypt key parsed (TimeCounter r) = Ok r
      /\ authenticates key parsed (TimeCounter r) = true
      /\ SeqCounter r = SequenceNumber parsed
      /\ len (ResultPayload r) = len (Payload packet) - 10.
Proof.
  intros H. destruct (valid_key_dec key) as [Hk|Hk];
    [|rewrite Decrypt_invalid_key in H by exact Hk; discriminate].
  split; [exact Hk|].
  destruct (ParsePacket (Payload packet)) as [parsed|e] eqn:Hp.
  2: { unfold Decrypt, AES128KeySize, AES256KeySize in H.
       rewrite (valid_key_check _ Hk) in H. cbv zeta in H.
       rewrite Hp in H. discriminate. }
  exists parsed. split; [reflexivity|].
  rewrite (Decrypt_unfold _ _ _ _ _ _ Hk Hp) in H. cbv zeta in H.
  apply Decrypt_loop_success in H; [|apply uint32_range].
  destruct H as (c & Hc & Ht).
  pose proof (ParsePacket_tag_length _ _ Hp) as Htl.
  destruct (tryDecrypt_outcome key parsed Hk Htl c) as [[Ha [pt Hpt]] | [_ Hf]];
    [|congruence].
  destruct (tryDecrypt_success key parsed Hk c Ha)
    as (ek & nonce & _ & Hvk & _ & Hnl & Heq).
  rewrite AESCTRDecrypt_ok in Heq by assumption. cbn [result_map] in Heq.
  rewrite Heq in Ht. apply Ok_inj in Ht. subst r.
  cbn [TimeCounter SeqCounter ResultPayload].
  split; [exact Hc|]. split; [exact Heq|]. split; [exact Ha|].
  split; [reflexivity|].
  destruct (ParsePacket_inv _ _ Hp) as [Hlen ->]. cbn [EncryptedPayload].
  unfold len in *. rewrite XORKeyStream_length, length_skipn. lia.
Qed.

(** X12. Whenever [Decrypt] succeeds, the key has a valid length and the
    packet parses, the returned counter is one whose derived key verifies
    the packet's tag and does not exceed the upper bound of the search, the
    sequence counter is the packet's ten-bit sequence number, and the
    payload is as long as the packet's bytes after the tenth. *)
Theorem Decrypt_success_sound :
  forall fuel now key packet opts r,
    Decrypt fuel now key packet opts = Some (Ok r) ->
    valid_key key
    /\ 10 <= len (Payload packet)
    /\ candidate_authenticates key (Payload packet) (TimeCounter r) = true
    /\ 0 <= TimeCounter r
         <= uint32 (TimeToCounter
                      (ExpectedTime (resolved_options now packet opts))
                    + uint32 (SearchWindowDays
                                (resolved_options now packet opts)))
    /\ 0 <= SeqCounter r <= 1023
    /\ len (ResultPayload r) = len (Payload packet) - 10.
Proof.
  intros fuel now key packet opts r H.
  destruct (Decrypt_success_inv _ _ _ _ _ _ H)
    as (Hk & parsed & Hp & Hrange & _ & Ha & Hseq & Hlen).
  split; [exact Hk|]. destruct (ParsePacket_inv _ _ Hp) as [H10 Hparsed].
  split; [exact H10|].
  split; [unfold candidate_authenticates; rewrite Hp; exact Ha|].
  split; [exact Hrange|]. split; [|exact Hlen].
  rewrite Hseq, Hparsed. cbn [SequenceNumber]. rewrite land_1023.
  pose proof (Z.mod_pos_bound (BigEndian_Uint16 (firstn 2 (Payload packet)))
                              1024 ltac:(lia)). lia.
Qed.

Lemma Decrypt_success_sound_witness :
  valid_key key32
  /\ 10 <= len packet_20000
  /\ candidate_authenticates key32 packet_20000 20000 = true
  /\ 0 <= 20000
       <= uint32 (TimeToCounter
                    (ExpectedTime
                       (resolved_options zero_Time
                          (mkEncryptedPacket packet_20000 0 (CounterToTime 20000))
                          [WithSearchWindow 1]))
                  + uint32 (SearchWindowDays
                              (resolved_options zero_Time
                                 (mkEncryptedPacket packet_20000 0
                                    (CounterToTime 20000))
                                 [WithSearchWindow 1])))
  /\ 0 <= 42 <= 1023
  /\ len hello = len packet_20000 - 10.
Proof.
  apply (Decrypt_success_sound 8 zero_Time key32
           (mkEncryptedPacket packet_20000 0 (CounterToTime 20000))
           [WithSearchWindow 1] (mkDecryptResult hello 20000 42)).
  vm_compute. reflexivity.
Defined.

(** X13. The two-step use of the API is sound: when [FindTimeCounter]
    returns a counter, [DecryptWithKnownCounter] with that counter succeeds
    on the same packet and returns the very result [Decrypt] returns. *)
Theorem FindTimeCounter_then_DecryptWithKnownCounter :
  forall fuel now key packet opts tc,
    FindTimeCounter fuel now key packet opts = Some (Ok tc) ->
    exists r,
      DecryptWithKnownCounter key packet tc = Ok r
      /\ TimeCounter r = tc
      /\ Decrypt fuel now key packet opts = Some (Ok r).
Proof.
  intros fuel now key packet opts tc H.
  destruct (valid_key_dec key) as [Hk|Hk];
    [|rewrite FindTimeCounter_invalid_key in H by exact Hk; discriminate].
  destruct (Z.lt_ge_cases (len (Payload packet)) 10) as [Hlt|Hge].
  { unfold FindTimeCounter, AES128KeySize, AES256KeySize in H.
    rewrite (valid_key_check _ Hk) in H. cbv zeta in H.
    rewrite (ParsePacket_short _ Hlt) in H. discriminate. }
  pose proof (ParsePacket_ok _ Hge) as Hp.
  pose proof (ParsePacket_tag_length _ _ Hp) as Htl.
  rewrite (FindTimeCounter_unfold _ _ _ _ _ _ Hk Hp) in H. cbv zeta in H.
  rewrite (loops_agree _ _ Hk Htl) in H.
  pose proof (Decrypt_unfold fuel now key packet opts _ Hk Hp) as HD.
  cbv zeta in HD. rewrite <- HD in H.
  destruct (Decrypt fuel now key packet opts) as [[r|e]|] eqn:Hd;
    try discriminate.
  cbn [option_map result_map] in H. injection H as Htc.
  exists r. split; [|split; [exact Htc | reflexivity]].
  destruct (Decrypt_success_inv _ _ _ _ _ _ Hd)
    as (_ & parsed & Hp' & _ & Ht & _).
  rewrite Hp in Hp'. apply Ok_inj in Hp'. subst parsed.
  unfold DecryptWithKnownCounter, AES128KeySize, AES256KeySize.
  rewrite (valid_key_check _ Hk), Hp, <- Htc. exact Ht.
Qed.

Lemma FindTimeCounter_then_DecryptWithKnownCounter_witness :
  exists r,
    DecryptWithKnownCounter key32
      (mkEncryptedPacket packet_20000 0 (CounterToTime 20000)) 20000 = Ok r
    /\ TimeCounter r = 20000
    /\ Decrypt 8 zero_Time key32
         (mkEncryptedPacket packet_20000 0 (CounterToTime 20000))
         [WithSearchWindow 1] = Some (Ok r).
Proof.
  apply (FindTimeCounter_then_DecryptWithKnownCounter 8 zero_Time key32
           (mkEncryptedPacket packet_20000 0 (CounterToTime 20000))
           [WithSearchWindow 1] 20000).
  vm_compute. reflexivity.
Defined.

(** X14. [DecryptWithKnownCounter] never searches: for a valid key and a
    packet of at least ten bytes it either succeeds with the given counter
    or fails with [ErrAuthenticationFail] itself, not with
    [ErrDecryptionFailed], and it succeeds exactly when the counter
    authenticates the packet. *)
Theorem DecryptWithKnownCounter_outcomes :
  forall key packet timeCounter,
    valid_key key -> 10 <= len (Payload packet) ->
    (candidate_authenticates key (Payload packet) timeCounter = true ->
     exists r, DecryptWithKnownCounter key packet timeCounter = Ok r
               /\ TimeCounter r = timeCounter
               /\ len (ResultPayload r) = len (Payload packet) - 10)
    /\ (candidate_authenticates key (Payload packet) timeCounter = false ->
        DecryptWithKnownCounter key packet timeCounter
        = Err ErrAuthenticationFail).
Proof.
  intros key packet tc Hk Hlen.
  pose proof (ParsePacket_ok _ Hlen) as Hp.
  pose proof (ParsePacket_tag_length _ _ Hp) as Htl.
  unfold candidate_authenticates, DecryptWithKnownCounter,
    AES128KeySize, AES256KeySize.
  rewrite (valid_key_check _ Hk), Hp. split; intros Ha.
  - destruct (tryDecrypt_success _ _ Hk tc Ha)
      as (ek & nonce & _ & Hvk & _ & Hnl & ->).
    rewrite AESCTRDecrypt_ok by assumption. eexists.
    split; [reflexivity|]. cbn [result_map TimeCounter ResultPayload EncryptedPayload].
    split; [reflexivity|]. unfold len in *.
    rewrite XORKeyStream_length, length_skipn. lia.
  - apply tryDecrypt_failure; assumption.
Qed.

Lemma DecryptWithKnownCounter_outcomes_witness :
  (exists r,
     DecryptWithKnownCounter key32
       (mkEncryptedPacket packet_20000 0 zero_Time) 20000 = Ok r
     /\ TimeCounter r = 20000
     /\ len (ResultPayload r) = len packet_20000 - 10)
  /\ DecryptWithKnownCounter key32
       (mkEncryptedPacket packet_20000 0 zero_Time) 20010
     = Err ErrAuthenticationFail.
Proof.
  split.
  - apply (proj1 (DecryptWithKnownCounter_outcomes key32
                    (mkEncryptedPacket packet_20000 0 zero_Time) 20000
                    (or_intror eq_refl)
                    ltac:(apply Z.leb_le; vm_compute; reflexivity))).
    vm_compute. reflexivity.
  - apply (proj2 (DecryptWithKnownCounter_outcomes key32
                    (mkEncryptedPacket packet_20000 0 zero_Time) 20010
                    (or_intror eq_refl)
                    ltac:(apply Z.leb_le; vm_compute; reflexivity))).
    vm_compute. reflexivity.
Defined.

(** ** decrypt.go: termination of the search *)

Lemma Decrypt_loop_terminates key parsed maxCounter :
  maxCounter < 4294967295 ->
  forall n tc fuel,
    0 <= tc -> n = Z.to_nat (maxCounter + 1 - tc) -> (n < fuel)%nat ->
    exists res, Decrypt_loop fuel key parsed tc maxCounter = Some res.
Proof.
  intros Hmax. induction n as [|n IH]; intros tc fuel Htc Hn Hf;
    (destruct fuel as [|fuel]; [lia|]); cbn [Decrypt_loop];
    destruct (Z.leb_spec tc maxCounter) as [Hle|Hgt]; eauto; try lia.
  destruct (tryDecrypt key parsed tc); eauto.
  rewrite uint32_small by lia. apply (IH (tc + 1)); lia.
Qed.

Lemma FindTimeCounter_loop_terminates key parsed maxCounter :
  maxCounter < 4294967295 ->
  forall n tc fuel,
    0 <= tc -> n = Z.to_nat (maxCounter + 1 - tc) -> (n < fuel)%nat ->
    exists res, FindTimeCounter_loop fuel key parsed tc maxCounter = Some res.
Proof.
  intros Hmax. induction n as [|n IH]; intros tc fuel Htc Hn Hf;
    (destruct fuel as [|fuel]; [lia|]); rewrite FindTimeCounter_loop_step;
    destruct (Z.leb_spec tc maxCounter) as [Hle|Hgt]; eauto; try lia.
  destruct (authenticates key parsed tc); eauto.
  rewrite uint32_small by lia. apply (IH (tc + 1)); lia.
Qed.

Lemma Decrypt_loop_more_fuel key parsed maxCounter :
  forall fuel tc res k,
    Decrypt_loop fuel key parsed tc maxCounter = Some res ->
    Decrypt_loop (fuel + k) key parsed tc maxCounter = Some res.
Proof.
  induction fuel as [|fuel IH]; intros tc res k H; [discriminate|].
  cbn [Nat.add Decrypt_loop] in *.
  destruct (tc <=? maxCounter); [|exact H].
  destruct (tryDecrypt key parsed tc); [exact H | apply IH, H].
Qed.

Lemma Decrypt_more_fuel fuel now key packet opts res k :
  Decrypt fuel now key packet opts = Some res ->
  Decrypt (fuel + k) now key packet opts = Some res.
Proof.
  unfold Decrypt.
  destruct (negb (len key =? AES128KeySize) && negb (len key =? AES256KeySize));
    [auto|].
  cbv zeta. destruct (ParsePacket (Payload packet)); [|auto].
  apply Decrypt_loop_more_fuel.
Qed.

(** X15. The search terminates when its upper bound is below [2^32 - 1]:
    with [lo] and [hi] the wrapped bounds [uint32(B - uint32(W))] and
    [uint32(B + uint32(W))], both [Decrypt] and [FindTimeCounter] return
    after at most [hi - lo + 1] candidates (none when [lo > hi]), and more
    fuel does not change what [Decrypt] returns. *)
Theorem search_terminates :
  forall fuel now key packet opts lo hi,
    lo = uint32 (TimeToCounter (ExpectedTime (resolved_options now packet opts))
                 - uint32 (SearchWindowDays (resolved_options now packet opts))) ->
    hi = uint32 (TimeToCounter (ExpectedTime (resolved_options now packet opts))
                 + uint32 (SearchWindowDays (resolved_options now packet opts))) ->
    hi < 4294967295 ->
    (Z.to_nat (hi + 1 - lo) < fuel)%nat ->
    (exists res, Decrypt fuel now key packet opts = Some res
                 /\ forall k, Decrypt (fuel + k) now key packet opts = Some res)
    /\ (exists res, FindTimeCounter fuel now key packet opts = Some res).
Proof.
  intros fuel now key packet opts lo hi Hlo Hhi Hmax Hfuel.
  assert (HD : exists res, Decrypt fuel now key packet opts = Some res).
  { destruct (valid_key_dec key) as [Hk|Hk];
      [|rewrite Decrypt_invalid_key by exact Hk; eauto].
    destruct (ParsePacket (Payload packet)) as [parsed|e] eqn:Hp.
    - rewrite (Decrypt_unfold _ _ _ _ _ _ Hk Hp). cbv zeta.
      rewrite <- Hlo, <- Hhi.
      apply (Decrypt_loop_terminates key parsed hi Hmax
               (Z.to_nat (hi + 1 - lo))); [|reflexivity | exact Hfuel].
      subst lo. apply uint32_range.
    - unfold Decrypt, AES128KeySize, AES256KeySize.
      rewrite (valid_key_check _ Hk). cbv zeta. rewrite Hp. eauto. }
  split.
  - destruct HD as [res HD]. exists res. split; [exact HD|].
    intros k. apply Decrypt_more_fuel, HD.
  - destruct (valid_key_dec key) as [Hk|Hk];
      [|rewrite FindTimeCounter_invalid_key by exact Hk; eauto].
    destruct (ParsePacket (Payload packet)) as [parsed|e] eqn:Hp.
    + rewrite (FindTimeCounter_unfold _ _ _ _ _ _ Hk Hp). cbv zeta.
      rewrite <- Hlo, <- Hhi.
      apply (FindTimeCounter_loop_terminates key parsed hi Hmax
               (Z.to_nat (hi + 1 - lo))); [|reflexivity | exact Hfuel].
      subst lo. apply uint32_range.
    + unfold FindTimeCounter, AES128KeySize, AES256KeySize.
      rewrite (valid_key_check _ Hk). cbv zeta. rewrite Hp. eauto.
Qed.

Lemma search_terminates_witness :
  (exists res,
      Decrypt 6 zero_Time key32
        (mkEncryptedPacket packet_20000 0 (CounterToTime 20010)) []
      = Some res
      /\ forall k,
           Decrypt (6 + k) zero_Time key32
             (mkEncryptedPacket packet_20000 0 (CounterToTime 20010)) []
           = Some res)
  /\ (exists res,
        FindTimeCounter 6 zero_Time key32
          (mkEncryptedPacket packet_20000 0 (CounterToTime 20010)) []
        = Some res).
Proof.
  apply (search_terminates 6 zero_Time key32
           (mkEncryptedPacket packet_20000 0 (CounterToTime 20010)) []
           20008 20012).
  - reflexivity.
  - reflexivity.
  - lia.
  - vm_compute. lia.
Defined.

(** X16. When the upper bound of the search is [2^32 - 1] the loop
    condition can never fail (the counter wraps to 0 after it): for a valid
    key and a packet of at least ten bytes neither [Decrypt] nor
    [FindTimeCounter] ever reports an error; the search ends only when some
    counter, possibly below the lower bound, verifies the tag. *)
Theorem search_full_range_never_fails :
  forall fuel now key packet opts e,
    valid_key key -> 10 <= len (Payload packet) ->
    uint32 (TimeToCounter (ExpectedTime (resolved_options now packet opts))
            + uint32 (SearchWindowDays (resolved_options now packet opts)))
    = 4294967295 ->
    Decrypt fuel now key packet opts <> Some (Err e)
    /\ FindTimeCounter fuel now key packet opts <> Some (Err e).
Proof.
  intros fuel now key packet opts e Hk Hlen Hmax.
  pose proof (ParsePacket_ok _ Hlen) as Hp.
  pose proof (ParsePacket_tag_length _ _ Hp) as Htl.
  rewrite (FindTimeCounter_unfold _ _ _ _ _ _ Hk Hp),
          (Decrypt_unfold _ _ _ _ _ _ Hk Hp).
  cbv zeta. rewrite Hmax, (loops_agree _ _ Hk Htl).
  match goal with
  | |- ?d <> _ /\ _ =>
      assert (HD : d <> Some (Err e))
        by (apply Decrypt_loop_full_range; [exact Hk | exact Htl | apply uint32_range])
  end.
  split; [exact HD|].
  intros H.
  destruct (Decrypt_loop fuel key _ _ 4294967295) as [[r|e']|];
    try discriminate.
  cbn [option_map result_map] in H. congruence.
Qed.

Lemma search_full_range_never_fails_witness :
  Decrypt 4 zero_Time key16
    (mkEncryptedPacket packet_1 0 (CounterToTime 4294967293)) []
  <> Some (Err ErrDecryptionFailed)
  /\ FindTimeCounter 4 zero_Time key16
       (mkEncryptedPacket packet_1 0 (CounterToTime 4294967293)) []
     <> Some (Err ErrDecryptionFailed).
Proof.
  apply (search_full_range_never_fails 4 zero_Time key16
           (mkEncryptedPacket packet_1 0 (CounterToTime 4294967293)) []
           ErrDecryptionFailed).
  - left. reflexivity.
  - apply Z.leb_le. vm_compute. reflexivity.
  - reflexivity.
Defined.

(** ** decrypt.go: what the tag covers *)

Lemma FindTimeCounter_agrees_with_Decrypt_aux fuel now key packet opts :
  valid_key key -> 10 <= len (Payload packet) ->
  FindTimeCounter fuel now key packet opts
  = option_map (result_map TimeCounter) (Decrypt fuel now key packet opts).
Proof.
  intros Hk Hlen. pose proof (ParsePacket_ok _ Hlen) as Hp.
  rewrite (FindTimeCounter_unfold _ _ _ _ _ _ Hk Hp),
          (Decrypt_unfold _ _ _ _ _ _ Hk Hp).
  cbv zeta. apply loops_agree; [exact Hk|].
  eapply ParsePacket_tag_length, Hp.
Qed.

Lemma firstn_firstn_10 {A} (n : nat) (l : list A) :
  (n <= 10)%nat -> firstn n l = firstn n (firstn 10 l).
Proof. intros H. rewrite firstn_firstn, Nat.min_l by exact H. reflexivity. Qed.

Lemma authenticates_first_ten key p1 p2 tc :
  10 <= len p1 -> 10 <= len p2 -> firstn 10 p1 = firstn 10 p2 ->
  authenticates key
    (mkParsedPacket (Z.land (BigEndian_Uint16 (firstn 2 p1)) 1023)
                    (firstn 4 (skipn 6 p1)) (skipn 10 p1) p1) tc
  = authenticates key
      (mkParsedPacket (Z.land (BigEndian_Uint16 (firstn 2 p2)) 1023)
                      (firstn 4 (skipn 6 p2)) (skipn 10 p2) p2) tc.
Proof.
  intros H1 H2 Hpre. unfold authenticates.
  cbn [SequenceNumber RawPacket AuthTag].
  assert (E2 : firstn 2 p1 = firstn 2 p2)
    by (rewrite (firstn_firstn_10 2 p1), (firstn_firstn_10 2 p2), Hpre by lia;
        reflexivity).
  assert (E6 : slice_to p1 AuthTagOffset = slice_to p2 AuthTagOffset).
  { unfold slice_to, slice. cbn [skipn Z.to_nat].
    change (Z.to_nat (AuthTagOffset - 0)) with 6%nat.
    rewrite (firstn_firstn_10 6 p1), (firstn_firstn_10 6 p2), Hpre by lia.
    reflexivity. }
  assert (E4 : firstn 4 (skipn 6 p1) = firstn 4 (skipn 6 p2)).
  { transitivity (skipn 6 (firstn 10 p1)).
    - rewrite skipn_firstn_comm. reflexivity.
    - rewrite Hpre, skipn_firstn_comm. reflexivity. }
  rewrite E2, E6, E4. reflexivity.
Qed.

Lemma FindTimeCounter_loop_ext key parsed1 parsed2 maxCounter :
  (forall c, authenticates key parsed1 c = authenticates key parsed2 c) ->
  forall fuel tc,
    FindTimeCounter_loop fuel key parsed1 tc maxCounter
    = FindTimeCounter_loop fuel key parsed2 tc maxCounter.
Proof.
  intros Hext. induction fuel as [|fuel IH]; intros tc; [reflexivity|].
  rewrite !FindTimeCounter_loop_step, Hext, IH. reflexivity.
Qed.

(** X17. The tag covers only the first six bytes: two packets that agree
    on their first ten bytes (header, reserved bytes and tag) and on their
    timestamp are indistinguishable to the search.  [FindTimeCounter]
    returns the same for both, and [Decrypt] succeeds on one exactly when it
    succeeds on the other, with the same counters; a changed ciphertext is
    never rejected. *)
Theorem ciphertext_not_authenticated :
  forall fuel now key packet1 packet2 opts,
    valid_key key ->
    10 <= len (Payload packet1) -> 10 <= len (Payload packet2) ->
    firstn 10 (Payload packet1) = firstn 10 (Payload packet2) ->
    Timestamp packet1 = Timestamp packet2 ->
    FindTimeCounter fuel now key packet1 opts
    = FindTimeCounter fuel now key packet2 opts
    /\ (forall r1,
          Decrypt fuel now key packet1 opts = Some (Ok r1) ->
          exists r2,
            Decrypt fuel now key packet2 opts = Some (Ok r2)
            /\ TimeCounter r2 = TimeCounter r1
            /\ SeqCounter r2 = SeqCounter r1)
    /\ (forall e,
          Decrypt fuel now key packet1 opts = Some (Err e) ->
          Decrypt fuel now key packet2 opts = Some (Err e)).
Proof.
  intros fuel now key p1 p2 opts Hk H1 H2 Hpre Hts.
  pose proof (ParsePacket_ok _ H1) as Hp1.
  pose proof (ParsePacket_ok _ H2) as Hp2.
  assert (Hopts : resolved_options now p1 opts = resolved_options now p2 opts)
    by (unfold resolved_options; rewrite Hts; reflexivity).
  assert (HF : FindTimeCounter fuel now key p1 opts
               = FindTimeCounter fuel now key p2 opts).
  { rewrite (FindTimeCounter_unfold _ _ _ _ _ _ Hk Hp1),
            (FindTimeCounter_unfold _ _ _ _ _ _ Hk Hp2).
    cbv zeta. rewrite Hopts. apply FindTimeCounter_loop_ext.
    intros c. apply authenticates_first_ten; assumption. }
  split; [exact HF|].
  pose proof (FindTimeCounter_agrees_with_Decrypt_aux fuel now key p1 opts Hk H1)
    as E1.
  pose proof (FindTimeCounter_agrees_with_Decrypt_aux fuel now key p2 opts Hk H2)
    as E2.
  rewrite E1, E2 in HF. split.
  - intros r1 Hd1. rewrite Hd1 in HF. cbn [option_map result_map] in HF.
    destruct (Decrypt fuel now key p2 opts) as [[r2|e2]|] eqn:Hd2;
      try discriminate.
    cbn [option_map result_map] in HF. exists r2.
    split; [reflexivity|]. split; [congruence|].
    destruct (Decrypt_success_inv _ _ _ _ _ _ Hd1)
      as (_ & q1 & Hq1 & _ & _ & _ & Hs1 & _).
    destruct (Decrypt_success_inv _ _ _ _ _ _ Hd2)
      as (_ & q2 & Hq2 & _ & _ & _ & Hs2 & _).
    rewrite Hp1 in Hq1. rewrite Hp2 in Hq2.
    apply Ok_inj in Hq1. apply Ok_inj in Hq2. subst q1 q2.
    rewrite Hs1, Hs2. cbn [SequenceNumber].
    rewrite (firstn_firstn_10 2 (Payload p1)), (firstn_firstn_10 2 (Payload p2)),
      Hpre by lia. reflexivity.
  - intros e Hd1. rewrite Hd1 in HF. cbn [option_map result_map] in HF.
    destruct (Decrypt fuel now key p2 opts) as [[r2|e2]|]; try discriminate.
    cbn [option_map result_map] in HF. congruence.
Qed.

Lemma ciphertext_not_authenticated_witness :
  FindTimeCounter 8 zero_Time key32
    (mkEncryptedPacket packet_20000 0 (CounterToTime 20000)) []
  = FindTimeCounter 8 zero_Time key32
      (mkEncryptedPacket packet_20000_tampered 0 (CounterToTime 20000)) []
  /\ (forall r1,
        Decrypt 8 zero_Time key32
          (mkEncryptedPacket packet_20000 0 (CounterToTime 20000)) []
        = Some (Ok r1) ->
        exists r2,
          Decrypt 8 zero_Time key32
            (mkEncryptedPacket packet_20000_tampered 0 (CounterToTime 20000)) []
          = Some (Ok r2)
          /\ TimeCounter r2 = TimeCounter r1
          /\ SeqCounter r2 = SeqCounter r1)
  /\ (forall e,
        Decrypt 8 zero_Time key32
          (mkEncryptedPacket packet_20000 0 (CounterToTime 20000)) []
        = Some (Err e) ->
        Decrypt 8 zero_Time key32
          (mkEncryptedPacket packet_20000_tampered 0 (CounterToTime 20000)) []
        = Some (Err e)).
Proof.
  apply (ciphertext_not_authenticated 8 zero_Time key32
           (mkEncryptedPacket packet_20000 0 (CounterToTime 20000))
           (mkEncryptedPacket packet_20000_tampered 0 (CounterToTime 20000)) []).
  - right. reflexivity.
  - apply Z.leb_le. vm_compute. reflexivity.
  - apply Z.leb_le. vm_compute. reflexivity.
  - reflexivity.
  - reflexivity.
Defined.

(** ** decrypt.go: the options *)

Lemma apply_options_last options opts opt :
  apply_options options (opts ++ [opt]) = opt (apply_options options opts).
Proof. unfold apply_options. rewrite fold_left_app. reflexivity. Qed.

(** X18. The search depends on the expected time only through its day
    counter, and a later option overrides an earlier one: whatever options
    come first, ending them with [WithExpectedTime t1] or with
    [WithExpectedTime t2] gives the same result of [Decrypt] and of
    [FindTimeCounter] when neither time is the zero time and both fall on
    the same day. *)
Theorem expected_time_matters_by_day :
  forall fuel now key packet opts t1 t2,
    IsZero t1 = false -> IsZero t2 = false ->
    TimeToCounter t1 = TimeToCounter t2 ->
    Decrypt fuel now key packet (opts ++ [WithExpectedTime t1])
    = Decrypt fuel now key packet (opts ++ [WithExpectedTime t2])
    /\ FindTimeCounter fuel now key packet (opts ++ [WithExpectedTime t1])
       = FindTimeCounter fuel now key packet (opts ++ [WithExpectedTime t2]).
Proof.
  intros fuel now key packet opts t1 t2 Hz1 Hz2 Hday.
  unfold Decrypt, FindTimeCounter. cbv zeta.
  rewrite !apply_options_last. unfold WithExpectedTime.
  cbn [ExpectedTime SearchWindowDays]. rewrite Hz1, Hz2.
  cbn [ExpectedTime SearchWindowDays]. rewrite Hday. split; reflexivity.
Qed.

Lemma expected_time_matters_by_day_witness :
  Decrypt 8 zero_Time key32 (mkEncryptedPacket packet_20000 0 zero_Time)
    ([WithSearchWindow 1; WithExpectedTime (CounterToTime 5)]
       ++ [WithExpectedTime (mkTime 1728000000 0)])
  = Decrypt 8 zero_Time key32 (mkEncryptedPacket packet_20000 0 zero_Time)
      ([WithSearchWindow 1; WithExpectedTime (CounterToTime 5)]
         ++ [WithExpectedTime (mkTime 1728086399 999)])
  /\ FindTimeCounter 8 zero_Time key32
       (mkEncryptedPacket packet_20000 0 zero_Time)
       ([WithSearchWindow 1; WithExpectedTime (CounterToTime 5)]
          ++ [WithExpectedTime (mkTime 1728000000 0)])
     = FindTimeCounter 8 zero_Time key32
         (mkEncryptedPacket packet_20000 0 zero_Time)
         ([WithSearchWindow 1; WithExpectedTime (CounterToTime 5)]
            ++ [WithExpectedTime (mkTime 1728086399 999)]).
Proof.
  apply (expected_time_matters_by_day 8 zero_Time key32
           (mkEncryptedPacket packet_20000 0 zero_Time)
           [WithSearchWindow 1; WithExpectedTime (CounterToTime 5)]
           (mkTime 1728000000 0) (mkTime 1728086399 999));
    reflexivity.
Defined.

(** ** Strings *)

Lemma str_length_app a b :
  String.length (a ++ b)%string = (String.length a + String.length b)%nat.
Proof. induction a as [|c a IH]; cbn; [reflexivity | rewrite IH; reflexivity]. Qed.

Lemma str_app_assoc a b c : (a ++ b ++ c = (a ++ b) ++ c)%string.
Proof. induction a as [|ch a IH]; cbn; [reflexivity | rewrite IH; reflexivity]. Qed.

Lemma str_take_length n : forall s,
  String.length (str_take n s) = Nat.min n (String.length s).
Proof.
  induction n as [|n IH]; intros [|c s]; cbn; try reflexivity.
  rewrite IH. reflexivity.
Qed.

Lemma str_take_all n : forall s, (String.length s <= n)%nat -> str_take n s = s.
Proof.
  induction n as [|n IH]; intros [|c s] H; cbn in *; try reflexivity; try lia.
  rewrite IH by lia. reflexivity.
Qed.

Lemma str_take_app a b : str_take (String.length a) (a ++ b)%string = a.
Proof. induction a as [|c a IH]; cbn; [destruct b; reflexivity | rewrite IH; reflexivity]. Qed.

Lemma str_drop_app a b : str_drop (String.length a) (a ++ b)%string = b.
Proof. induction a as [|c a IH]; cbn; [reflexivity | exact IH]. Qed.

Lemma str_repeat_length c n : String.length (str_repeat c n) = n.
Proof. induction n as [|n IH]; cbn; [reflexivity | rewrite IH; reflexivity]. Qed.

Lemma hex_length b :
  String.length (hex_EncodeToString b) = (2 * length b)%nat.
Proof.
  induction b as [|v b IH]; cbn [hex_EncodeToString String.length length];
    [reflexivity | rewrite IH; lia].
Qed.

Lemma hex_app a b :
  hex_EncodeToString (a ++ b)
  = (hex_EncodeToString a ++ hex_EncodeToString b)%string.
Proof.
  induction a as [|v a IH]; cbn [hex_EncodeToString app String.append];
    [reflexivity | rewrite IH; reflexivity].
Qed.

(** ** blescan.go *)

Lemma version_sequence_split h :
  0 <= h < 65536 ->
  Z.land (Z.shiftr h 10) 63 = h / 1024 /\ Z.land h 1023 = h mod 1024.
Proof.
  intros Hh. split; [|apply land_1023].
  rewrite Z.shiftr_div_pow2 by lia. change (2 ^ 10) with 1024.
  change 63 with (Z.ones 6). rewrite Z.land_ones by lia.
  apply Z.mod_small. split; [apply Z.div_pos; lia|].
  apply Z.div_lt_upper_bound; lia.
Qed.

Lemma parsePayloadFields_fields payload w f :
  2 <= len payload ->
  parsePayloadFields payload w = Ok f ->
  let header := BigEndian_Uint16 (slice payload 0 2) in
  field_ver f = FormatUint10 (Z.land (Z.shiftr header 10) 63)
  /\ field_seq f = FormatUint10 (Z.land header 1023)
  /\ field_deviceID f
     = (if len payload >=? 6 then Sprintf_08x (slice payload 2 6) else "-"%string)
  /\ field_authTag f
     = (if len payload >=? 10 then Sprintf_08x (slice payload 6 10)
        else "-"%string).
Proof.
  intros Hlen H. unfold parsePayloadFields in H.
  destruct (Z.ltb_spec (len payload) 2); [lia|]. cbv zeta in H.
  destruct (len payload >? 10).
  - destruct (str_len (hex_EncodeToString (slice_from payload 10)) >? w).
    + destruct (w - 3 <? 0); [discriminate|].
      apply Ok_inj in H. subst f. cbn. auto.
    + apply Ok_inj in H. subst f. cbn. auto.
  - apply Ok_inj in H. subst f. cbn. auto.
Qed.

(** X19. The scan table decodes a packet consistently with [ParsePacket]:
    whenever [parsePayloadFields] returns for a packet that [ParsePacket]
    accepts, the sequence column is the decimal of the parsed
    [SequenceNumber], the tag column is the hexadecimal of the parsed
    [AuthTag], and the version column is the decimal of the upper six bits
    of the header, so that [version * 1024 + SequenceNumber] is the 16-bit
    header. *)
Theorem parsePayloadFields_agrees_with_ParsePacket :
  forall (b0 b1 : byte) (rest : list byte) w parsed f,
    is_byte b0 -> is_byte b1 ->
    ParsePacket (b0 :: b1 :: rest) = Ok parsed ->
    parsePayloadFields (b0 :: b1 :: rest) w = Ok f ->
    field_seq f = FormatUint10 (SequenceNumber parsed)
    /\ field_authTag f = hex_EncodeToString (AuthTag parsed)
    /\ field_deviceID f = hex_EncodeToString (firstn 4 (skipn 2 (b0 :: b1 :: rest)))
    /\ exists version,
         field_ver f = FormatUint10 version
         /\ 0 <= version <= 63
         /\ version * 1024 + SequenceNumber parsed = b0 * 256 + b1.
Proof.
  intros b0 b1 rest w parsed f H0 H1 Hp Hf.
  destruct (ParsePacket_inv _ _ Hp) as [Hlen ->].
  destruct (parsePayloadFields_fields (b0 :: b1 :: rest) w f ltac:(lia) Hf)
    as (Hver & Hseq & Hdev & Htag).
  cbn [SequenceNumber AuthTag].
  assert (Hh : BigEndian_Uint16 (slice (b0 :: b1 :: rest) 0 2) = b0 * 256 + b1).
  { unfold BigEndian_Uint16. cbn [slice Z.sub Z.to_nat Pos.to_nat Pos.iter_op
      Nat.add skipn firstn nth]. apply lor_shiftl_8, H1. }
  rewrite Hh in Hver, Hseq.
  match goal with
  | |- context [BigEndian_Uint16 ?x] =>
      assert (Hh' : BigEndian_Uint16 x = b0 * 256 + b1)
        by (unfold BigEndian_Uint16; cbn [firstn nth]; apply lor_shiftl_8, H1);
      rewrite Hh'
  end.
  destruct (version_sequence_split (b0 * 256 + b1)) as [Hv Hs];
    [unfold is_byte in *; lia|].
  split; [exact Hseq|].
  destruct (Z.geb_spec (len (b0 :: b1 :: rest)) 6); [|lia].
  destruct (Z.geb_spec (len (b0 :: b1 :: rest)) 10); [|lia].
  split; [exact Htag|]. split; [exact Hdev|].
  exists ((b0 * 256 + b1) / 1024). rewrite <- Hv at 1.
  split; [exact Hver|]. rewrite Hs.
  pose proof (Z.div_mod (b0 * 256 + b1) 1024 ltac:(lia)).
  pose proof (Z.mod_pos_bound (b0 * 256 + b1) 1024 ltac:(lia)).
  unfold is_byte in *.
  assert (0 <= (b0 * 256 + b1) / 1024) by (apply Z.div_pos; lia).
  assert ((b0 * 256 + b1) / 1024 < 64) by (apply Z.div_lt_upper_bound; lia).
  lia.
Qed.

Lemma parsePayloadFields_agrees_with_ParsePacket_witness :
  field_seq (mkPayloadFields "0" "487" "00000000" "4c84a85c" "6738c061a3b6c92...")
  = FormatUint10 487
  /\ field_authTag
       (mkPayloadFields "0" "487" "00000000" "4c84a85c" "6738c061a3b6c92...")
     = hex_EncodeToString [76; 132; 168; 92]
  /\ field_deviceID
       (mkPayloadFields "0" "487" "00000000" "4c84a85c" "6738c061a3b6c92...")
     = hex_EncodeToString (firstn 4 (skipn 2 packet_20154))
  /\ exists version,
       field_ver
         (mkPayloadFields "0" "487" "00000000" "4c84a85c" "6738c061a3b6c92...")
       = FormatUint10 version
       /\ 0 <= version <= 63
       /\ version * 1024 + 487 = 1 * 256 + 231.
Proof.
  apply (parsePayloadFields_agrees_with_ParsePacket 1 231
           (skipn 2 packet_20154) 18
           (mkParsedPacket 487 [76; 132; 168; 92] (skipn 10 packet_20154)
                           packet_20154)
           (mkPayloadFields "0" "487" "00000000" "4c84a85c"
                            "6738c061a3b6c92..."));
    [unfold is_byte; lia | unfold is_byte; lia
    | vm_compute; reflexivity | vm_compute; reflexivity].
Defined.

Lemma encrypted_hex_length (payload : list byte) :
  10 <= len payload ->
  str_len (hex_EncodeToString (slice_from payload 10))
  = 2 * (len payload - 10).
Proof.
  intros H. unfold str_len, slice_from, len in *.
  rewrite hex_length, length_skipn. change (Z.to_nat 10) with 10%nat. lia.
Qed.

Lemma encryptedDisplayWidth_min width : 18 <= encryptedDisplayWidth width.
Proof.
  unfold encryptedDisplayWidth. cbv zeta.
  destruct (width >? 0); [|lia].
  destruct (Z.ltb_spec (width - (4 + 13 + 7 + 4 + 5 + 10 + 10 + 18)) 0); lia.
Qed.

Lemma parsePayloadFields_fits (payload : list byte) w :
  3 <= w ->
  exists f, parsePayloadFields payload w = Ok f
            /\ 1 <= str_len (field_encrypted f) <= w.
Proof.
  intros Hw. unfold parsePayloadFields.
  destruct (Z.ltb_spec (len payload) 2).
  { eexists. split; [reflexivity|]. cbn. lia. }
  cbv zeta. destruct (Z.gtb_spec (len payload) 10) as [Hgt|Hle].
  2: { eexists. split; [reflexivity|]. cbn. lia. }
  pose proof (encrypted_hex_length payload ltac:(lia)) as Hhex.
  destruct (Z.gtb_spec (str_len (hex_EncodeToString (slice_from payload 10))) w)
    as [Hlong|Hshort].
  - destruct (Z.ltb_spec (w - 3) 0); [lia|].
    eexists. split; [reflexivity|]. cbn [field_encrypted].
    unfold str_len in *. rewrite str_length_app, str_take_length. cbn [String.length].
    lia.
  - eexists. split; [reflexivity|]. cbn [field_encrypted]. lia.
Qed.

(** X20. [parsePayloadFields] shows five dashes for fewer than two bytes;
    it panics exactly when the packet has more than ten bytes, the
    hexadecimal of the rest is longer than the width and the width is below
    three; for a width of at least three it returns and the payload column
    is never wider than the width.  The width [updateTable] passes is at
    least 18 for every terminal width, so the table never panics and the
    column always fits. *)
Theorem parsePayloadFields_width :
  forall (payload : list byte) w width,
    (len payload < 2 ->
     parsePayloadFields payload w = Ok (mkPayloadFields "-" "-" "-" "-" "-"))
    /\ ((exists e, parsePayloadFields payload w = Err e)
        <-> 10 < len payload /\ w < 2 * (len payload - 10) /\ w < 3)
    /\ (3 <= w ->
        exists f, parsePayloadFields payload w = Ok f
                  /\ 1 <= str_len (field_encrypted f) <= w)
    /\ (exists f,
          parsePayloadFields payload (encryptedDisplayWidth width) = Ok f
          /\ str_len (field_encrypted f) <= encryptedDisplayWidth width).
Proof.
  intros payload w width. split; [|split; [|split]].
  - intros H. unfold parsePayloadFields.
    destruct (Z.ltb_spec (len payload) 2); [reflexivity | lia].
  - unfold parsePayloadFields.
    destruct (Z.ltb_spec (len payload) 2).
    { split; [intros [e He]; discriminate | lia]. }
    cbv zeta. destruct (Z.gtb_spec (len payload) 10) as [Hgt|Hle].
    2: { split; [intros [e He]; discriminate | lia]. }
    rewrite (encrypted_hex_length payload ltac:(lia)).
    destruct (Z.gtb_spec (2 * (len payload - 10)) w).
    + destruct (Z.ltb_spec (w - 3) 0).
      * split; [lia | eauto].
      * split; [intros [e He]; discriminate | lia].
    + split; [intros [e He]; discriminate | lia].
  - apply parsePayloadFields_fits.
  - pose proof (encryptedDisplayWidth_min width) as Hmin.
    destruct (parsePayloadFields_fits payload (encryptedDisplayWidth width)
                ltac:(lia)) as (f & Hf & Hlen).
    exists f. split; [exact Hf | lia].
Qed.

Lemma parsePayloadFields_width_witness :
  parsePayloadFields [1] 18 = Ok (mkPayloadFields "-" "-" "-" "-" "-")
  /\ (exists e, parsePayloadFields packet_20154 2 = Err e)
  /\ (exists f, parsePayloadFields packet_20154 18 = Ok f
                /\ 1 <= str_len (field_encrypted f) <= 18).
Proof.
  split; [|split].
  - apply (proj1 (parsePayloadFields_width [1] 18 0)). vm_compute. reflexivity.
  - apply (proj2 (proj1 (proj2 (parsePayloadFields_width packet_20154 2 0)))).
    vm_compute. repeat split; reflexivity.
  - apply (proj1 (proj2 (proj2 (parsePayloadFields_width packet_20154 18 0)))).
    lia.
Defined.

Lemma split_at_ten (payload : list byte) :
  payload = firstn 2 payload ++ firstn 4 (skipn 2 payload)
            ++ firstn 4 (skipn 6 payload) ++ skipn 10 payload.
Proof.
  rewrite <- (firstn_skipn 2 payload) at 1. f_equal.
  rewrite <- (firstn_skipn 4 (skipn 2 payload)) at 1. f_equal.
  rewrite skipn_skipn. change (4 + 2)%nat with 6%nat.
  rewrite <- (firstn_skipn 4 (skipn 6 payload)) at 1. f_equal.
  rewrite skipn_skipn. reflexivity.
Qed.

(** X21. When the payload column is wide enough not to be cut, the columns
    of the scan table partition the packet: the hexadecimal of the whole
    payload ([PayloadHex]) is the hexadecimal of the two header bytes
    followed by the device, tag and payload columns. *)
Theorem PayloadHex_is_columns :
  forall packet w f,
    10 < len (Payload packet) ->
    2 * (len (Payload packet) - 10) <= w ->
    parsePayloadFields (Payload packet) w = Ok f ->
    PayloadHex packet
    = (hex_EncodeToString (firstn 2 (Payload packet))
       ++ field_deviceID f ++ field_authTag f ++ field_encrypted f)%string
    /\ str_len (PayloadHex packet) = 2 * len (Payload packet).
Proof.
  intros packet w f Hlen Hw Hf. unfold PayloadHex. split.
  - destruct (parsePayloadFields_fields (Payload packet) w f ltac:(lia) Hf)
      as (_ & _ & Hdev & Htag).
    destruct (Z.geb_spec (len (Payload packet)) 6); [|lia].
    destruct (Z.geb_spec (len (Payload packet)) 10); [|lia].
    assert (Henc : field_encrypted f
                   = hex_EncodeToString (skipn 10 (Payload packet))).
    { unfold parsePayloadFields in Hf.
      destruct (Z.ltb_spec (len (Payload packet)) 2); [lia|]. cbv zeta in Hf.
      destruct (Z.gtb_spec (len (Payload packet)) 10); [|lia].
      rewrite (encrypted_hex_length (Payload packet) ltac:(lia)) in Hf.
      destruct (Z.gtb_spec (2 * (len (Payload packet) - 10)) w); [lia|].
      apply Ok_inj in Hf. subst f. reflexivity. }
    rewrite Hdev, Htag, Henc. unfold Sprintf_08x.
    rewrite <- !hex_app. f_equal. apply split_at_ten.
  - unfold str_len, len. rewrite hex_length. lia.
Qed.

Lemma PayloadHex_is_columns_witness :
  PayloadHex (mkEncryptedPacket packet_20154 0 zero_Time)
  = (hex_EncodeToString (firstn 2 packet_20154)
     ++ "00000000" ++ "4c84a85c" ++ "6738c061a3b6c92a15c0781e8fde")%string
  /\ str_len (PayloadHex (mkEncryptedPacket packet_20154 0 zero_Time))
     = 2 * len packet_20154.
Proof.
  apply (PayloadHex_is_columns (mkEncryptedPacket packet_20154 0 zero_Time) 40
           (mkPayloadFields "0" "487" "00000000" "4c84a85c"
                            "6738c061a3b6c92a15c0781e8fde")).
  - vm_compute. reflexivity.
  - vm_compute. discriminate.
  - vm_compute. reflexivity.
Defined.

(** ** devices.go and settings.go *)

(** X22. [truncate] never returns more than [maxLen] bytes: for
    [maxLen >= 0] it returns the string itself when it fits and otherwise a
    string of exactly [maxLen] bytes (cut without dots when [maxLen <= 3]);
    for a negative [maxLen] it panics on every string. *)
Theorem truncate_length :
  forall s maxLen,
    (0 <= maxLen ->
     exists out,
       truncate s maxLen = Ok out
       /\ str_len out = Z.min (str_len s) maxLen
       /\ (str_len s <= maxLen -> out = s)
       /\ (3 < maxLen < str_len s ->
           out = (str_take (Z.to_nat (maxLen - 3)) s ++ "...")%string))
    /\ (maxLen < 0 -> exists msg, truncate s maxLen = Err (Panic msg)).
Proof.
  intros s maxLen. unfold truncate, str_len. split.
  - intros Hm. destruct (Z.leb_spec (Z.of_nat (String.length s)) maxLen).
    { exists s. split; [reflexivity|]. split; [lia|]. split; [reflexivity | lia]. }
    destruct (Z.leb_spec maxLen 3).
    + destruct (Z.ltb_spec maxLen 0); [lia|]. eexists.
      split; [reflexivity|]. rewrite str_take_length.
      split; [lia|]. split; lia.
    + eexists. split; [reflexivity|].
      rewrite str_length_app, str_take_length. cbn [String.length].
      split; [lia|]. split; [lia | reflexivity].
  - intros Hm. destruct (Z.leb_spec (Z.of_nat (String.length s)) maxLen); [lia|].
    destruct (Z.leb_spec maxLen 3); [|lia].
    destruct (Z.ltb_spec maxLen 0); [eauto | lia].
Qed.

Lemma truncate_length_witness :
  (exists out,
      truncate "hello world" 8 = Ok out
      /\ str_len out = Z.min (str_len "hello world") 8
      /\ (str_len "hello world" <= 8 -> out = "hello world"%string)
      /\ (3 < 8 < str_len "hello world" ->
          out = (str_take (Z.to_nat (8 - 3)) "hello world" ++ "...")%string))
  /\ (exists msg, truncate "hello" (-1) = Err (Panic msg)).
Proof.
  split.
  - apply (proj1 (truncate_length "hello world" 8)). lia.
  - apply (proj2 (truncate_length "hello" (-1))). lia.
Defined.

(** X23. [maskString] shows ["****"] for every string of at most six bytes,
    whatever its length; a longer string keeps its length, its first two and
    its last two bytes, and every byte between them becomes an asterisk. *)
Theorem maskString_shape :
  forall s,
    (str_len s <= 6 -> maskString s = "****"%string)
    /\ (6 < str_len s ->
        str_len (maskString s) = str_len s
        /\ maskString s
           = (str_take 2 s
              ++ str_repeat "*"%char (Z.to_nat (str_len s - 4))
              ++ str_drop (Z.to_nat (str_len s - 2)) s)%string
        /\ str_take 2 (maskString s) = str_take 2 s
        /\ str_drop (Z.to_nat (str_len s - 2)) (maskString s)
           = str_drop (Z.to_nat (str_len s - 2)) s
        /\ str_len (str_drop (Z.to_nat (str_len s - 2)) s) = 2).
Proof.
  intros s. unfold maskString. split.
  - intros H. destruct (Z.leb_spec (str_len s) 6); [reflexivity | lia].
  - intros H. destruct (Z.leb_spec (str_len s) 6); [lia|].
    assert (Htake : String.length (str_take 2 s) = 2%nat)
      by (rewrite str_take_length; unfold str_len in *; lia).
    assert (Hdrop : forall n t, (n <= String.length t)%nat ->
                      String.length (str_drop n t) = (String.length t - n)%nat).
    { induction n as [|n IH]; intros [|c t] Hn; cbn in *; try lia.
      apply IH. lia. }
    assert (Hd2 : String.length (str_drop (Z.to_nat (str_len s - 2)) s) = 2%nat)
      by (rewrite Hdrop; unfold str_len in *; lia).
    split.
    { unfold str_len in *. rewrite !str_length_app, Htake, str_repeat_length, Hd2.
      lia. }
    split; [reflexivity|]. split.
    { rewrite <- Htake at 1. apply str_take_app. }
    split; [|unfold str_len at 1; rewrite Hd2; reflexivity].
    set (mid := str_repeat "*"%char (Z.to_nat (str_len s - 4))).
    set (tail := str_drop (Z.to_nat (str_len s - 2)) s).
    assert (Hn : Z.to_nat (str_len s - 2)
                 = String.length (str_take 2 s ++ mid)%string).
    { rewrite str_length_app, Htake. unfold mid. rewrite str_repeat_length.
      unfold str_len in *. lia. }
    rewrite Hn.
    rewrite str_app_assoc. apply str_drop_app.
Qed.

Lemma maskString_shape_witness :
  maskString "abcdef" = "****"%string
  /\ (str_len (maskString "test-org-id-123") = str_len "test-org-id-123"
      /\ maskString "test-org-id-123"
         = (str_take 2 "test-org-id-123"
            ++ str_repeat "*"%char (Z.to_nat (str_len "test-org-id-123" - 4))
            ++ str_drop (Z.to_nat (str_len "test-org-id-123" - 2))
                        "test-org-id-123")%string
      /\ str_take 2 (maskString "test-org-id-123") = str_take 2 "test-org-id-123"
      /\ str_drop (Z.to_nat (str_len "test-org-id-123" - 2))
                  (maskString "test-org-id-123")
         = str_drop (Z.to_nat (str_len "test-org-id-123" - 2)) "test-org-id-123"
      /\ str_len (str_drop (Z.to_nat (str_len "test-org-id-123" - 2))
                           "test-org-id-123") = 2).
Proof.
  split.
  - apply (proj1 (maskString_shape "abcdef")). vm_compute. discriminate.
  - apply (proj2 (maskString_shape "test-org-id-123")). vm_compute. reflexivity.
Defined.

(** ** Reuse of a key and nonce, and negative windows *)

Lemma xor_bytes_same_keystream p1 : forall p2 ks,
  length p1 = length p2 -> (length p1 <= length ks)%nat ->
  ctr.xor_bytes (ctr.xor_bytes p1 ks) (ctr.xor_bytes p2 ks)
  = ctr.xor_bytes p1 p2.
Proof.
  induction p1 as [|x p1 IH]; intros [|y p2] [|k ks] Hl Hk; cbn in *;
    try reflexivity; try lia.
  rewrite IH by lia. f_equal.
  rewrite Z.lxor_assoc, (Z.lxor_comm y k), <- (Z.lxor_assoc k k y).
  rewrite Z.lxor_nilpotent, Z.lxor_0_l. reflexivity.
Qed.

(** X24. Two plaintexts of the same length encrypted under the same key and
    nonce share the keystream: the exclusive or of the two ciphertexts is
    the exclusive or of the two plaintexts. *)
Theorem AESCTR_keystream_reuse :
  forall key nonce p1 p2 c1 c2,
    valid_key key -> len nonce = 12 -> length p1 = length p2 ->
    AESCTREncrypt key nonce p1 = Ok c1 ->
    AESCTREncrypt key nonce p2 = Ok c2 ->
    ctr.xor_bytes c1 c2 = ctr.xor_bytes p1 p2.
Proof.
  intros key nonce p1 p2 c1 c2 Hk Hn Hl H1 H2. unfold AESCTREncrypt in *.
  rewrite AESCTRDecrypt_ok in H1, H2 by assumption.
  apply Ok_inj in H1. apply Ok_inj in H2. subst c1 c2.
  unfold ctr.XORKeyStream. rewrite <- Hl.
  apply xor_bytes_same_keystream; [exact Hl|].
  rewrite keystream_length. apply blocks_cover.
Qed.

Lemma AESCTR_keystream_reuse_witness :
  ctr.xor_bytes
    [142; 196; 87; 91; 232; 163; 123; 202; 26; 45; 227; 14; 196; 233]
    [198; 161; 59; 55; 135; 143; 91; 130; 111; 79; 129; 98; 161; 200]
  = ctr.xor_bytes hello (make 14).
Proof.
  apply (AESCTR_keystream_reuse key16 (make 12) hello (make 14)).
  - left. reflexivity.
  - reflexivity.
  - reflexivity.
  - vm_compute. reflexivity.
  - vm_compute. reflexivity.
Defined.

(** X25. A negative search window is neither rejected nor read as zero: the
    conversion to [uint32] wraps it, and for a base counter [B] with
    [-W <= B] and [B - W < 2^32] the bounds come out swapped ([B - W] below,
    [B + W] above), so the loop body never runs and both searches fail at
    once, whatever the packet is. *)
Theorem negative_window_fails :
  forall fuel now key packet opts B W,
    valid_key key -> 10 <= len (Payload packet) ->
    B = TimeToCounter (ExpectedTime (resolved_options now packet opts)) ->
    W = SearchWindowDays (resolved_options now packet opts) ->
    -4294967296 < W < 0 -> - W <= B -> B - W < 4294967296 ->
    uint32 (B - uint32 W) = B - W
    /\ uint32 (B + uint32 W) = B + W
    /\ Decrypt (S fuel) now key packet opts = Some (Err ErrDecryptionFailed)
    /\ FindTimeCounter (S fuel) now key packet opts
       = Some (Err ErrDecryptionFailed).
Proof.
  intros fuel now key packet opts B W Hk Hlen HB HW HWneg HWB Hhi.
  assert (HW32 : uint32 W = W + 4294967296).
  { unfold uint32. rewrite <- (Z_mod_plus_full W 1 4294967296).
    apply Z.mod_small. lia. }
  assert (Hlo : uint32 (B - uint32 W) = B - W).
  { rewrite HW32. unfold uint32.
    replace (B - (W + 4294967296)) with (B - W + (-1) * 4294967296) by lia.
    rewrite Z_mod_plus_full. apply Z.mod_small. lia. }
  assert (Hup : uint32 (B + uint32 W) = B + W).
  { rewrite HW32. unfold uint32.
    replace (B + (W + 4294967296)) with (B + W + 1 * 4294967296) by lia.
    rewrite Z_mod_plus_full. apply Z.mod_small. lia. }
  split; [exact Hlo|]. split; [exact Hup|].
  pose proof (ParsePacket_ok _ Hlen) as Hp.
  rewrite (Decrypt_unfold _ _ _ _ _ _ Hk Hp),
          (FindTimeCounter_unfold _ _ _ _ _ _ Hk Hp).
  cbv zeta. rewrite <- HB, <- HW, Hlo, Hup.
  cbn [Decrypt_loop FindTimeCounter_loop].
  destruct (Z.leb_spec (B - W) (B + W)); [lia|]. auto.
Qed.

Lemma negative_window_fails_witness :
  uint32 (20000 - uint32 (-1)) = 20000 - -1
  /\ uint32 (20000 + uint32 (-1)) = 20000 + -1
  /\ Decrypt 1 zero_Time key32
       (mkEncryptedPacket packet_20000 0 (CounterToTime 20000))
       [WithSearchWindow (-1)]
     = Some (Err ErrDecryptionFailed)
  /\ FindTimeCounter 1 zero_Time key32
       (mkEncryptedPacket packet_20000 0 (CounterToTime 20000))
       [WithSearchWindow (-1)]
     = Some (Err ErrDecryptionFailed).
Proof.
  apply (negative_window_fails 0 zero_Time key32
           (mkEncryptedPacket packet_20000 0 (CounterToTime 20000))
           [WithSearchWindow (-1)] 20000 (-1)).
  - right. reflexivity.
  - apply Z.leb_le. vm_compute. reflexivity.
  - reflexivity.
  - reflexivity.
  - lia.
  - lia.
  - lia.
Defined.
